(** * NormalizedEnvWrapper: a normalising facade over a vectorised environment

    Shallow embedding of
    [trust_region_projections_step/trajectories/normalized_env_wrapper.py].

    The wrapper owns two normalizer objects and holds two handles to a
    parallel environment set.  Python objects that are mutated through a
    handle live in a heap; the wrapper's own attributes are a record that
    is threaded through every method together with that heap.  Exceptions
    leave the state as it was when they were raised. *)

From Stdlib Require Import Floats ZArith.
From stdpp Require Import base option list gmap strings.

Local Open Scope Z_scope.

(** ** Arrays

    A numpy array of float64: its shape and its elements in row-major
    order. *)

Record ndarray := NdArray { nd_shape : list nat; nd_data : list float }.

(** [x.copy()]: a fresh array with the same contents. *)
Definition ndarray_copy (x : ndarray) : ndarray :=
  NdArray (nd_shape x) (nd_data x).

(** ** Environment constructors

    [partial(fancy_gym.make, env_id=..., seed=..., max_episode_length=...,
    normalize_obs=..., **kwargs)]: the keyword arguments bound so far. *)

Section EnvFn.
Context {KwVal : Type}.

Record EnvFn := MkEnvFn {
  fn_env_id : string;
  fn_seed : Z;
  fn_max_episode_length : Z;
  fn_normalize_obs : option bool;
  fn_kwargs : gmap string KwVal
}.
End EnvFn.
Arguments EnvFn : clear implicits.

(** ** Collaborators

    The parallel environment set ([SubprocVecEnv] of stable_baselines3) is
    an external library: an object with a state of its own, a constructor
    that can fail, and blocking [reset] and [step] methods that can fail
    and that may change the object's state even when they do. *)

Class VecEnvAPI := {
  KwVal : Type;
  Actions : Type;
  Info : Type;
  Space : Type;
  EnvError : Type;
  venv : Type;
  SubprocVecEnv : list (EnvFn KwVal) → EnvError + venv;
  venv_reset : venv → (EnvError + ndarray) * venv;
  venv_step : venv → Actions →
    (EnvError + (ndarray * ndarray * list bool * list Info)) * venv;
  venv_observation_space : venv → Space;
  venv_action_space : venv → Space
}.

(** The normalizer classes of [env_normalizer]: two constructors, the
    call [n(x, update=True)] and [n.reset(dones=None)].  A normalizer is a
    mutable object owned by the wrapper alone, so a call returns the
    object's next state next to its result. *)

Class NormalizerAPI := {
  normalizer : Type;
  BaseNormalizer : normalizer;
  MovingAvgNormalizer :
    normalizer → list nat → bool → bool → float → option float → normalizer;
  norm_call : normalizer → ndarray → bool → ndarray * normalizer;
  norm_reset : normalizer → option (list bool) → normalizer
}.

(** ** Exceptions and the state-and-exception monad *)

Inductive exn {E : Type} :=
  | AttributeError (attr : string)
  | TypeError (msg : string)
  | InvalidReference
  | EnvFailure (e : E).
Arguments exn : clear implicits.

Inductive result (E A : Type) :=
  | Ok (a : A)
  | Raise (e : exn E).
Arguments Ok {E A} a.
Arguments Raise {E A} e.

Definition M (E Σ A : Type) : Type := Σ → result E A * Σ.

#[export] Instance M_ret {E Σ} : MRet (M E Σ) := λ A a σ, (Ok a, σ).
#[export] Instance M_bind {E Σ} : MBind (M E Σ) := λ A B f m σ,
  match m σ with
  | (Ok a, σ') => f a σ'
  | (Raise e, σ') => (Raise e, σ')
  end.

Definition raise {E Σ A} (e : exn E) : M E Σ A := λ σ, (Raise e, σ).

(** [[f(x) for x in xs]]: left to right, stopping at the first exception. *)
Fixpoint mapM {E Σ A B} (f : A → M E Σ B) (xs : list A) : M E Σ (list B) :=
  match xs with
  | [] => mret []
  | x :: xs => y ← f x; ys ← mapM f xs; mret (y :: ys)
  end.

(** ** The wrapper *)

Definition loc := positive.

(** Which of the wrapper's two normalizer attributes a call goes through. *)
Inductive norm_attr := StateNormalizer | RewardNormalizer.

Section Wrapper.
Context `{VecEnvAPI} `{NormalizerAPI}.

(** Calls made to collaborators, in the order they are made. *)
Inductive event :=
  | EvEnvNew (fns : list (EnvFn KwVal))
  | EvEnvReset (l : loc)
  | EvEnvStep (l : loc) (actions : Actions)
  | EvNormCall (a : norm_attr) (x : ndarray) (update : bool)
  | EvNormReset (a : norm_attr) (dones : option (list bool)).

(** The heap of environment-set objects, and the trace of calls. *)
Record world := World {
  heap : gmap loc venv;
  trace : list event
}.

(** The attributes of a [NormalizedEnvWrapper].  A handle is [None] for
    Python's [None]; [last_obs] is [None] while the attribute is not
    defined. *)
Record NormalizedEnvWrapper := Wrapper {
  max_episode_length : Z;
  env_fns : list (EnvFn KwVal);
  envs : option loc;
  envs_test : option loc;
  norm_obs : option bool;
  clip_obs : option float;
  norm_rewards : option bool;
  clip_rewards : option float;
  state_normalizer : normalizer;
  reward_normalizer : normalizer;
  last_obs : option ndarray
}.

Definition state : Type := NormalizedEnvWrapper * world.

Abbreviation MW := (M EnvError world).
Abbreviation MS := (M EnvError state).

Definition log (ev : event) (σ : world) : world :=
  World (heap σ) (trace σ ++ [ev]).

Definition set_heap (l : loc) (e : venv) (σ : world) : world :=
  World (<[l := e]> (heap σ)) (trace σ).

(** *** Calls on the environment set *)

(** [SubprocVecEnv(func_list)]: a new object in the heap. *)
Definition new_SubprocVecEnv (fns : list (EnvFn KwVal)) : MW loc := λ σ,
  match SubprocVecEnv fns with
  | inl e => (Raise (EnvFailure e), log (EvEnvNew fns) σ)
  | inr v =>
      let l := fresh (dom (heap σ)) in
      (Ok l, set_heap l v (log (EvEnvNew fns) σ))
  end.

(** [h.reset()] *)
Definition env_reset (h : option loc) : MW ndarray := λ σ,
  match h with
  | None => (Raise (AttributeError "reset"), σ)
  | Some l =>
      match heap σ !! l with
      | None => (Raise InvalidReference, σ)
      | Some e =>
          let σ1 := log (EvEnvReset l) σ in
          match venv_reset e with
          | (inl err, e') => (Raise (EnvFailure err), set_heap l e' σ1)
          | (inr obs, e') => (Ok obs, set_heap l e' σ1)
          end
      end
  end.

(** [h.step(actions)] *)
Definition env_step (h : option loc) (actions : Actions)
  : MW (ndarray * ndarray * list bool * list Info) := λ σ,
  match h with
  | None => (Raise (AttributeError "step"), σ)
  | Some l =>
      match heap σ !! l with
      | None => (Raise InvalidReference, σ)
      | Some e =>
          let σ1 := log (EvEnvStep l actions) σ in
          match venv_step e actions with
          | (inl err, e') => (Raise (EnvFailure err), set_heap l e' σ1)
          | (inr r, e') => (Ok r, set_heap l e' σ1)
          end
      end
  end.

(** [h.observation_space] and [h.action_space] *)
Definition env_space (name : string) (get : venv → Space) (h : option loc)
  : MW Space := λ σ,
  match h with
  | None => (Raise (AttributeError name), σ)
  | Some l =>
      match heap σ !! l with
      | None => (Raise InvalidReference, σ)
      | Some e => (Ok (get e), σ)
      end
  end.

(** *** Attributes of [self] *)

Definition in_world {A} (m : MW A) : MS A := λ s,
  let '(r, σ') := m s.2 in (r, (s.1, σ')).

Definition getattr {A} (f : NormalizedEnvWrapper → A) : MS A := λ s,
  (Ok (f s.1), s).

Definition get_norm (a : norm_attr) (w : NormalizedEnvWrapper) : normalizer :=
  match a with
  | StateNormalizer => state_normalizer w
  | RewardNormalizer => reward_normalizer w
  end.

Definition set_norm (a : norm_attr) (n : normalizer)
    (w : NormalizedEnvWrapper) : NormalizedEnvWrapper :=
  match a with
  | StateNormalizer =>
      Wrapper (max_episode_length w) (env_fns w) (envs w) (envs_test w)
        (norm_obs w) (clip_obs w) (norm_rewards w) (clip_rewards w)
        n (reward_normalizer w) (last_obs w)
  | RewardNormalizer =>
      Wrapper (max_episode_length w) (env_fns w) (envs w) (envs_test w)
        (norm_obs w) (clip_obs w) (norm_rewards w) (clip_rewards w)
        (state_normalizer w) n (last_obs w)
  end.

Definition with_last_obs (o : option ndarray)
    (w : NormalizedEnvWrapper) : NormalizedEnvWrapper :=
  Wrapper (max_episode_length w) (env_fns w) (envs w) (envs_test w)
    (norm_obs w) (clip_obs w) (norm_rewards w) (clip_rewards w)
    (state_normalizer w) (reward_normalizer w) o.

(** [self.last_obs = x] *)
Definition set_last_obs (x : ndarray) : MS unit := λ s,
  (Ok (), (with_last_obs (Some x) s.1, s.2)).

(** [self.last_obs], which raises while the attribute is not defined. *)
Definition get_last_obs : MS ndarray := λ s,
  match last_obs s.1 with
  | Some x => (Ok x, s)
  | None => (Raise (AttributeError "last_obs"), s)
  end.

(** [self.<a>(x, update)]; [update] is [True] when the call leaves it
    out. *)
Definition call_normalizer (a : norm_attr) (x : ndarray) (update : bool)
  : MS ndarray := λ s,
  let r := norm_call (get_norm a s.1) x update in
  (Ok r.1, (set_norm a r.2 s.1, log (EvNormCall a x update) s.2)).

(** [self.<a>.reset(dones)]; [dones] is [None] when the call leaves it
    out. *)
Definition reset_normalizer (a : norm_attr) (dones : option (list bool))
  : MS unit := λ s,
  (Ok (), (set_norm a (norm_reset (get_norm a s.1) dones) s.1,
           log (EvNormReset a dones) s.2)).

(** *** Construction *)

(** One element of [func_list].  A keyword given both by name and through
    [**kwargs] is a [TypeError]; of the four names bound here only
    [normalize_obs] can be in [kwargs], the other three being parameters
    of [__init__] itself. *)
Definition partial_make (env_id : string) (seed : Z) (mel : Z)
    (normalize_obs : option bool) (kwargs : gmap string KwVal)
  : MW (EnvFn KwVal) :=
  if decide (is_Some (kwargs !! "normalize_obs"))
  then raise (TypeError "multiple values for keyword argument normalize_obs")
  else mret (MkEnvFn env_id seed mel normalize_obs kwargs).

(** Python truth of an [Union[bool, None]] flag. *)
Definition truthy (b : option bool) : bool := default false b.

Definition __init__ (env_id : string) (n_envs n_test_envs : Z)
    (max_episode_length : Z) (gamma : float)
    (norm_obs : option bool) (clip_obs : option float)
    (norm_rewards : option bool) (clip_rewards : option float)
    (seed : Z) (kwargs : gmap string KwVal) : MW NormalizedEnvWrapper :=
  func_list ← mapM (λ i, partial_make env_id (seed + i) max_episode_length
                            norm_obs kwargs) (seqZ 0 n_envs);
  envs ← new_SubprocVecEnv func_list;
  let envs_test := envs in
  let state_normalizer := BaseNormalizer in
  let reward_normalizer := BaseNormalizer in
  let reward_normalizer :=
    if truthy norm_rewards
    then MovingAvgNormalizer reward_normalizer [] false true gamma clip_rewards
    else reward_normalizer in
  let self := Wrapper max_episode_length func_list (Some envs) (Some envs_test)
                norm_obs clip_obs norm_rewards clip_rewards
                state_normalizer reward_normalizer None in
  if bool_decide (n_envs ≠ 0)
  then obs ← env_reset (Some envs); mret (with_last_obs (Some obs) self)
  else mret self.

(** *** Methods *)

Definition step (actions : Actions)
  : MS (ndarray * ndarray * list bool * list Info) :=
  h ← getattr envs;
  '(obs, rews, dones, infos) ← in_world (env_step h actions);
  o ← call_normalizer StateNormalizer obs true;
  set_last_obs o;;
  rews_norm ← call_normalizer RewardNormalizer rews true;
  reset_normalizer StateNormalizer (Some dones);;
  reset_normalizer RewardNormalizer (Some dones);;
  last ← get_last_obs;
  mret (ndarray_copy last, rews_norm, dones, infos).

Definition step_test (action : Actions)
  : MS (ndarray * ndarray * list bool * list Info) :=
  h ← getattr envs_test;
  '(obs, rews, dones, infos) ← in_world (env_step h action);
  obs ← call_normalizer StateNormalizer obs false;
  mret (obs, rews, dones, infos).

Definition reset_test : MS ndarray :=
  h ← getattr envs_test;
  obs ← in_world (env_reset h);
  call_normalizer StateNormalizer obs false.

Definition reset : MS ndarray :=
  reset_normalizer StateNormalizer None;;
  reset_normalizer RewardNormalizer None;;
  h ← getattr envs;
  obs ← in_world (env_reset h);
  call_normalizer StateNormalizer obs true.

Definition observation_space : MS Space :=
  h ← getattr envs;
  if h is Some _
  then in_world (env_space "observation_space" venv_observation_space h)
  else h' ← getattr envs_test;
       in_world (env_space "observation_space" venv_observation_space h').

Definition action_space : MS Space :=
  h ← getattr envs;
  if h is Some _
  then in_world (env_space "action_space" venv_action_space h)
  else h' ← getattr envs_test;
       in_world (env_space "action_space" venv_action_space h').

(** *** Auxiliary notions

    The wrapper [__init__] has built when it reaches the initial reset:
    [l] is the handle of the new environment set. *)
Definition built (env_id : string) (n_envs mel : Z) (gamma : float)
    (nobs : option bool) (cobs : option float) (nrew : option bool)
    (crew : option float) (seed : Z) (kwargs : gmap string KwVal) (l : loc)
  : NormalizedEnvWrapper :=
  Wrapper mel ((λ i, MkEnvFn env_id (seed + i) mel nobs kwargs) <$> seqZ 0 n_envs)
    (Some l) (Some l) nobs cobs nrew crew BaseNormalizer
    (if truthy nrew
     then MovingAvgNormalizer BaseNormalizer [] false true gamma crew
     else BaseNormalizer)
    None.

(** An operation that takes [s] to [s'] keeps the handles and frees
    nothing. *)
Definition handles_kept (s s' : state) : Prop :=
  envs s'.1 = envs s.1 ∧ envs_test s'.1 = envs_test s.1 ∧
  ∀ l, is_Some (heap s.2 !! l) → is_Some (heap s'.2 !! l).

(** *** Drivers

    What a caller can do with a wrapper once it is constructed, rendering
    apart.  A caller may catch an exception and go on, so a run continues
    from the state an operation leaves, whatever its result. *)

Inductive op :=
  | OpStep (actions : Actions)
  | OpStepTest (action : Actions)
  | OpReset
  | OpResetTest
  | OpObservationSpace
  | OpActionSpace.

Definition run_op (o : op) (s : state) : state :=
  match o with
  | OpStep a => (step a s).2
  | OpStepTest a => (step_test a s).2
  | OpReset => (reset s).2
  | OpResetTest => (reset_test s).2
  | OpObservationSpace => (observation_space s).2
  | OpActionSpace => (action_space s).2
  end.

Definition run_ops (os : list op) (s : state) : state :=
  foldl (λ s o, run_op o s) s os.

(** The evaluation-mode operations. *)
Definition is_eval_op (o : op) : bool :=
  match o with
  | OpStepTest _ | OpResetTest => true
  | _ => false
  end.

(** States a caller can be in: a wrapper fresh from a successful
    [__init__], in the world that call left, and whatever follows from
    there by the operations above. *)
Inductive reachable : state → Prop :=
  | reachable_init env_id n_envs n_test_envs mel gamma norm_obs clip_obs
      norm_rewards clip_rewards seed kwargs σ0 w σ :
      __init__ env_id n_envs n_test_envs mel gamma norm_obs clip_obs
        norm_rewards clip_rewards seed kwargs σ0 = (Ok w, σ) →
      reachable (w, σ)
  | reachable_op o s :
      reachable s → reachable (run_op o s).

End Wrapper.

(** ** Observing a run

    What a caller sees of an operation, and what the collaborators see of
    the wrapper. *)

Section Observers.
Context `{VecEnvAPI} `{NormalizerAPI}.

(** The value an operation returns. *)
Inductive out :=
  | OutTransition (r : ndarray * ndarray * list bool * list Info)
  | OutObs (obs : ndarray)
  | OutSpace (sp : Space).

Definition returning {A} (f : A → out) (r : result EnvError A * state)
  : result EnvError out * state :=
  (match r.1 with Ok a => Ok (f a) | Raise e => Raise e end, r.2).

(** An operation with its result. *)
Definition exec (o : op) (s : state) : result EnvError out * state :=
  match o with
  | OpStep a => returning OutTransition (step a s)
  | OpStepTest a => returning OutTransition (step_test a s)
  | OpReset => returning OutObs (reset s)
  | OpResetTest => returning OutObs (reset_test s)
  | OpObservationSpace => returning OutSpace (observation_space s)
  | OpActionSpace => returning OutSpace (action_space s)
  end.

(** The results of a run, in order, and the state it ends in. *)
Fixpoint outs (os : list op) (s : state)
  : list (result EnvError out) * state :=
  match os with
  | [] => ([], s)
  | o :: os =>
      let r := exec o s in
      let rs := outs os r.2 in
      (r.1 :: rs.1, rs.2)
  end.

Definition is_step_op (o : op) : bool :=
  match o with
  | OpStep _ => true
  | _ => false
  end.

(** [w] with another [clip_obs]. *)
Definition with_clip_obs (c : option float) (w : NormalizedEnvWrapper)
  : NormalizedEnvWrapper :=
  Wrapper (max_episode_length w) (env_fns w) (envs w) (envs_test w)
    (norm_obs w) c (norm_rewards w) (clip_rewards w)
    (state_normalizer w) (reward_normalizer w) (last_obs w).

(** The attributes that [__init__] sets once and for all. *)
Definition same_configuration (w w' : NormalizedEnvWrapper) : Prop :=
  max_episode_length w' = max_episode_length w ∧
  env_fns w' = env_fns w ∧
  envs w' = envs w ∧
  envs_test w' = envs_test w ∧
  norm_obs w' = norm_obs w ∧
  clip_obs w' = clip_obs w ∧
  norm_rewards w' = norm_rewards w ∧
  clip_rewards w' = clip_rewards w.

(** [l] is one of the two handles of [w]. *)
Definition is_handle (w : NormalizedEnvWrapper) (l : loc) : bool :=
  bool_decide (envs w = Some l) || bool_decide (envs_test w = Some l).

(** The calls that [step], [step_test], [reset], [reset_test] and the two
    space properties of [w] can make ([render_test] apart, which calls
    [render]): [reset] and [step] on an environment set behind one of its
    handles, the state normalizer with either value of [update], the
    reward normalizer with [update=True], and resets of either
    normalizer. *)
Definition method_event (w : NormalizedEnvWrapper) (ev : event) : bool :=
  match ev with
  | EvEnvNew _ => false
  | EvEnvReset l | EvEnvStep l _ => is_handle w l
  | EvNormCall StateNormalizer _ _ => true
  | EvNormCall RewardNormalizer _ update => update
  | EvNormReset _ _ => true
  end.

(** The calls of evaluation mode: [reset] and [step] on an environment
    set behind [envs_test], and the state normalizer with
    [update=False]. *)
Definition eval_event (w : NormalizedEnvWrapper) (ev : event) : bool :=
  match ev with
  | EvEnvReset l | EvEnvStep l _ => bool_decide (envs_test w = Some l)
  | EvNormCall StateNormalizer _ update => negb update
  | _ => false
  end.

End Observers.

(** ** Rendering

    [render] of the environment set is one more method of the external
    library; what it returns depends on the mode. *)

Section Render.
Context `{VecEnvAPI} `{NormalizerAPI}.
Variable Frame : Type.
Variable venv_render :
  venv → string → gmap string KwVal → (EnvError + Frame) * venv.

(** [h.render(mode, **kwargs)] *)
Definition env_render (h : option loc) (mode : string)
    (kwargs : gmap string KwVal) : M EnvError world Frame := λ σ,
  match h with
  | None => (Raise (AttributeError "render"), σ)
  | Some l =>
      match heap σ !! l with
      | None => (Raise InvalidReference, σ)
      | Some e =>
          match venv_render e mode kwargs with
          | (inl err, e') => (Raise (EnvFailure err), set_heap l e' σ)
          | (inr frame, e') => (Ok frame, set_heap l e' σ)
          end
      end
  end.

(** [render_test(mode="human", **kwargs)]; [mode] is [None] when the call
    leaves it out.  The method has no [return]: its value is [None]. *)
Definition render_test (mode : option string) (kwargs : gmap string KwVal)
  : M EnvError state unit :=
  h ← getattr envs_test;
  in_world (env_render h (default "human" mode) kwargs);;
  mret ().

End Render.

(** ** Environment constructors for gym

    [gym.make] and [env.seed] belong to an external library with a state
    of its own (its registry, the environments it has made). *)

Class GymAPI := {
  GymWorld : Type;
  GymEnv : Type;
  GymError : Type;
  gym_make : string → M GymError GymWorld GymEnv;
  env_seed : GymEnv → Z → M GymError GymWorld unit
}.

Section MakeEnv.
Context `{GymAPI}.

(** The closure [_get_env] with [env_id], [seed] and [rank] captured. *)
Definition _get_env (env_id : string) (seed rank : Z)
  : M GymError GymWorld GymEnv :=
  env ← gym_make env_id;
  env_seed env (seed + rank);;
  mret env.

(** [make_env(env_id, seed, rank)] returns the closure; nothing runs until
    it is called. *)
Definition make_env (env_id : string) (seed rank : Z)
  : M GymError GymWorld GymEnv :=
  _get_env env_id seed rank.

End MakeEnv.

(** ** The normalizers

    The module [env_normalizer], with the classes [BaseNormalizer] and
    [MovingAvgNormalizer], is not among the sources.  What follows is the
    statistics normalizer as its contract describes it: the configuration,
    the running moments, the transform (centre, scale with an epsilon
    floor, clip), the [update] flag and the two kinds of reset.  The
    incremental formula that folds a sample into the moments and the
    per-slot trackers is left open by that contract and is a parameter
    here, as is the value of the epsilon floor. *)

(** Modelled from the spec: the configuration of a normalizer ([shape],
    [center], [scale], [gamma], [clip]); the class that holds it is
    missing from the sources. *)
Record NormalizerConfig := Config {
  shape : list nat;
  center : bool;
  scale : bool;
  gamma : float;
  clip : option float
}.

(** Modelled from the spec: the accumulators of a normalizer (count, mean
    and variance per feature dimension), missing from the sources. *)
Record RunningMoments := Moments {
  count : Z;
  mean : list float;
  variance : list float
}.

(** Modelled from the spec: the two normalizer classes missing from the
    sources.  [SBase] is [BaseNormalizer], which has no state;
    [SMovingAvg] is [MovingAvgNormalizer] with its configuration, its
    moments and its per-slot trackers.  The first constructor argument of
    [MovingAvgNormalizer] is the normalizer it is stacked on: samples go
    through that one first and a reset reaches it too. *)
Inductive spec_normalizer :=
  | SBase
  | SMovingAvg (prev : spec_normalizer) (cfg : NormalizerConfig)
      (rm : RunningMoments) (slots : list float).

(** Modelled from the spec: the zero state of the accumulators (missing
    from the sources) for a quantity of shape [sh]. *)
Definition zero_moments (sh : list nat) : RunningMoments :=
  let n := foldr Nat.mul 1%nat sh in
  Moments 0 (replicate n 0%float) (replicate n 0%float).

(** Modelled from the spec: clipping to [[-c, +c]], part of the missing
    [MovingAvgNormalizer]. *)
Definition clamp (c x : float) : float :=
  if PrimFloat.ltb x (PrimFloat.opp c) then PrimFloat.opp c
  else if PrimFloat.ltb c x then c
  else x.

Section SpecNormalizer.
Variable eps : float.
Variable moments_update :
  NormalizerConfig → RunningMoments → list float → ndarray →
  RunningMoments * list float.

(** Modelled from the spec: the divisor of the missing
    [MovingAvgNormalizer] when it scales, the square root of a variance
    estimate, clamped at zero first and floored at [eps] after. *)
Definition std_floor (v : float) : float :=
  let v0 := if PrimFloat.ltb v 0%float then 0%float else v in
  let s := PrimFloat.sqrt v0 in
  if PrimFloat.ltb s eps then eps else s.

(** Modelled from the spec: how the missing [MovingAvgNormalizer] pairs a
    sample with its moments.  The moments are broadcast over the leading
    (slot) dimension: element [i] of the sample meets entry [i mod k] of
    the [k] moment entries. *)
Definition moment_at (ms : list float) (i : nat) : float :=
  default 0%float (ms !! (i mod length ms)%nat).

(** Modelled from the spec: the transform of the missing
    [MovingAvgNormalizer] on one element: subtract the mean if [center],
    divide by the floored standard deviation if [scale], clip if [clip]
    is set. *)
Definition transform_elem (cfg : NormalizerConfig) (rm : RunningMoments)
    (i : nat) (v : float) : float :=
  let v := if center cfg then PrimFloat.sub v (moment_at (mean rm) i) else v in
  let v := if scale cfg
           then PrimFloat.div v (std_floor (moment_at (variance rm) i))
           else v in
  match clip cfg with
  | Some c => clamp c v
  | None => v
  end.

(** Modelled from the spec: the transform of the missing
    [MovingAvgNormalizer] on a whole sample. *)
Definition transform (cfg : NormalizerConfig) (rm : RunningMoments)
    (x : ndarray) : ndarray :=
  NdArray (nd_shape x) (imap (transform_elem cfg rm) (nd_data x)).

(** Modelled from the spec: the call [n(x, update)] of the missing
    normalizer classes.  [BaseNormalizer] returns its input; a
    [MovingAvgNormalizer] folds the sample into its accumulators when
    [update] holds, leaves them alone when it does not, and returns the
    transformed sample. *)
Fixpoint spec_call (n : spec_normalizer) (x : ndarray) (update : bool)
  : ndarray * spec_normalizer :=
  match n with
  | SBase => (x, SBase)
  | SMovingAvg prev cfg rm slots =>
      let r := spec_call prev x update in
      let acc := if update then moments_update cfg rm slots r.1
                 else (rm, slots) in
      (transform cfg acc.1 r.1, SMovingAvg r.2 cfg acc.1 acc.2)
  end.

(** Modelled from the spec: the per-slot part of the missing [reset];
    the trackers of the slots whose episode is over go back to zero. *)
Definition clear_done (dones : list bool) (slots : list float) : list float :=
  imap (λ i v, if default false (dones !! i) then 0%float else v) slots.

(** Modelled from the spec: [n.reset(dones)] of the missing normalizer
    classes.  Without a mask every accumulator goes back to its zero
    state; with one, only the trackers of the finished slots do and the
    moments stay. *)
Fixpoint spec_reset (n : spec_normalizer) (dones : option (list bool))
  : spec_normalizer :=
  match n with
  | SBase => SBase
  | SMovingAvg prev cfg rm slots =>
      match dones with
      | None => SMovingAvg (spec_reset prev None) cfg (zero_moments (shape cfg)) []
      | Some d => SMovingAvg (spec_reset prev (Some d)) cfg rm (clear_done d slots)
      end
  end.

(** Modelled from the spec: the constructor of the missing
    [MovingAvgNormalizer]; the accumulators start in their zero state. *)
Definition spec_new (prev : spec_normalizer) (sh : list nat)
    (center scale : bool) (gamma : float) (clip : option float)
  : spec_normalizer :=
  SMovingAvg prev (Config sh center scale gamma clip) (zero_moments sh) [].

(** Modelled from the spec: the missing module [env_normalizer] as an
    implementation of the normalizer interface. *)
Definition SpecNormalizers : NormalizerAPI := {|
  normalizer := spec_normalizer;
  BaseNormalizer := SBase;
  MovingAvgNormalizer := spec_new;
  norm_call := spec_call;
  norm_reset := spec_reset
|}.

(** A normalizer none of whose layers centres, scales or clips. *)
Fixpoint is_passthrough (n : spec_normalizer) : bool :=
  match n with
  | SBase => true
  | SMovingAvg prev cfg _ _ =>
      is_passthrough prev && negb (center cfg) && negb (scale cfg)
      && bool_decide (clip cfg = None)
  end.

(** What a caller can do with a normalizer, and a run of such
    operations: the outputs of the calls, in order, and the normalizer
    afterwards. *)
Inductive norm_op :=
  | NCall (x : ndarray) (update : bool)
  | NReset (dones : option (list bool)).

Fixpoint feed (n : spec_normalizer) (ops : list norm_op)
  : list ndarray * spec_normalizer :=
  match ops with
  | [] => ([], n)
  | NCall x u :: ops =>
      let r := spec_call n x u in
      let rs := feed r.2 ops in
      (r.1 :: rs.1, rs.2)
  | NReset d :: ops => feed (spec_reset n d) ops
  end.

(** The samples a run passes to the normalizer, in order. *)
Fixpoint inputs (ops : list norm_op) : list ndarray :=
  match ops with
  | [] => []
  | NCall x _ :: ops => x :: inputs ops
  | NReset _ :: ops => inputs ops
  end.

(** The calls of evaluation mode. *)
Definition is_eval_call (o : norm_op) : bool :=
  match o with
  | NCall _ false => true
  | _ => false
  end.

End SpecNormalizer.

(** ** A small environment set

    A deterministic instance of the collaborators, for running the
    wrapper on concrete inputs: every slot echoes its action as
    observation and as reward, counts its steps, and ends its episode
    after [max_episode_length] of them. *)

Module Toy.

Record slot := Slot { slot_fn : EnvFn unit; slot_t : Z }.

Definition toy_new (fns : list (EnvFn unit)) : string + list slot :=
  inr ((λ f, Slot f 0) <$> fns).

Definition toy_reset (v : list slot) : (string + ndarray) * list slot :=
  (inr (NdArray [length v; 1%nat] (replicate (length v) 0%float)),
   (λ s, Slot (slot_fn s) 0) <$> v).

Definition slot_done (s : slot) : bool :=
  bool_decide (fn_max_episode_length (slot_fn s) ≤ slot_t s + 1).

Definition slot_next (s : slot) : slot :=
  Slot (slot_fn s) (if slot_done s then 0 else slot_t s + 1).

Definition toy_step (v : list slot) (actions : list float)
  : (string + (ndarray * ndarray * list bool * list unit)) * list slot :=
  if decide (length actions = length v)
  then (inr (NdArray [length v; 1%nat] actions, NdArray [length v] actions,
             slot_done <$> v, (λ _, ()) <$> v),
        slot_next <$> v)
  else (inl "actions do not match the number of slots", v).

Definition toy_env : VecEnvAPI := {|
  KwVal := unit;
  Actions := list float;
  Info := unit;
  Space := nat;
  EnvError := string;
  venv := list slot;
  SubprocVecEnv := toy_new;
  venv_reset := toy_reset;
  venv_step := toy_step;
  venv_observation_space v := 1%nat;
  venv_action_space v := length v
|}.

Definition toy_eps : float := 0.5%float.

(** A stand-in for the incremental formula: the mean follows the first
    element of the sample, the variance estimate is constant. *)
Definition toy_update (cfg : NormalizerConfig) (rm : RunningMoments)
    (slots : list float) (x : ndarray) : RunningMoments * list float :=
  (Moments (count rm + 1) [default 0%float (head (nd_data x))] [4%float],
   nd_data x).

Definition toy_norm : NormalizerAPI := SpecNormalizers toy_eps toy_update.

Definition world0 : @world toy_env := World ∅ [].

(** [NormalizedEnvWrapper("toy", n_envs=n, max_episode_length=2)] *)
Definition construct (n : Z) :=
  @__init__ toy_env toy_norm "toy" n 1 2 0.5%float
    (Some true) None (Some true) None 1 ∅ world0.

Definition blank : @NormalizedEnvWrapper toy_env toy_norm :=
  @Wrapper toy_env toy_norm 0 [] None None None None None None SBase SBase None.

(** The state after a successful construction with [n] slots. *)
Definition started (n : Z) : @state toy_env toy_norm :=
  match construct n with
  | (Ok w, σ) => (w, σ)
  | (Raise _, σ) => (blank, σ)
  end.

Definition w2 : @NormalizedEnvWrapper toy_env toy_norm :=
  Eval vm_compute in (started 2).1.
Definition σ2 : @world toy_env := Eval vm_compute in (started 2).2.
Definition w0 : @NormalizedEnvWrapper toy_env toy_norm :=
  Eval vm_compute in (started 0).1.
Definition σ0 : @world toy_env := Eval vm_compute in (started 0).2.

Definition acts : list float := [1%float; 3%float].

(** A moving-average normalizer that neither centres, scales nor clips. *)
Definition idle : spec_normalizer :=
  spec_new SBase [] false false 0.5%float None.

(** Rendering: the frame is the number of slots. *)
Definition toy_render (v : list slot) (mode : string)
    (kwargs : gmap string unit) : (string + nat) * list slot :=
  if decide (mode = "human") then (inr (length v), v)
  else (inl "unknown render mode", v).

(** An environment set with stricter collaborators: it wants at least one
    constructor, and it can be reset only between episodes and with a
    positive time limit. *)
Definition strict_new (fns : list (EnvFn unit)) : string + list slot :=
  if decide (fns = []) then inl "need at least one environment"
  else toy_new fns.

Definition strict_reset (v : list slot) : (string + ndarray) * list slot :=
  if decide (Forall (λ s, 0 < fn_max_episode_length (slot_fn s)
                          ∧ slot_t s = 0) v)
  then toy_reset v
  else (inl "not ready for a reset", v).

Definition strict_env : VecEnvAPI := {|
  KwVal := unit;
  Actions := list float;
  Info := unit;
  Space := nat;
  EnvError := string;
  venv := list slot;
  SubprocVecEnv := strict_new;
  venv_reset := strict_reset;
  venv_step := toy_step;
  venv_observation_space v := 1%nat;
  venv_action_space v := length v
|}.

(** [NormalizedEnvWrapper("toy", n_envs=1, max_episode_length=mel)] on the
    strict environment set. *)
Definition construct_strict (n mel : Z) :=
  @__init__ strict_env toy_norm "toy" n 1 mel 0.5%float
    (Some true) None (Some true) None 1 ∅ (@World strict_env ∅ []).

(** The state after a construction with one slot and one step. *)
Definition stepped_strict : @state strict_env toy_norm :=
  match construct_strict 1 2 with
  | (Ok w, σ) =>
      @run_op strict_env toy_norm (@OpStep strict_env [1%float]) (w, σ)
  | (Raise _, σ) =>
      (@Wrapper strict_env toy_norm 0 [] None None None None None None
         SBase SBase None, σ)
  end.

Definition ws1 : @NormalizedEnvWrapper strict_env toy_norm :=
  Eval vm_compute in stepped_strict.1.
Definition σs1 : @world strict_env := Eval vm_compute in stepped_strict.2.

(** The state after a construction with one slot on the strict
    environment set. *)
Definition started_strict : @state strict_env toy_norm :=
  match construct_strict 1 2 with
  | (Ok w, σ) => (w, σ)
  | (Raise _, σ) =>
      (@Wrapper strict_env toy_norm 0 [] None None None None None None
         SBase SBase None, σ)
  end.

Definition wS : @NormalizedEnvWrapper strict_env toy_norm :=
  Eval vm_compute in started_strict.1.
Definition σS : @world strict_env := Eval vm_compute in started_strict.2.

(** A return-style stand-in for the incremental formula: the per-slot
    trackers are the discounted returns, [gamma] times the tracker plus
    the new sample, and the variance estimate is the sum of their
    squares. *)
Definition ret_update (cfg : NormalizerConfig) (rm : RunningMoments)
    (slots : list float) (x : ndarray) : RunningMoments * list float :=
  let rets :=
    imap (λ i v, PrimFloat.add
                   (PrimFloat.mul (gamma cfg) (default 0%float (slots !! i))) v)
      (nd_data x) in
  (Moments (count rm + 1) [0%float]
     [foldr (λ r acc, PrimFloat.add (PrimFloat.mul r r) acc) 0%float rets],
   rets).

Definition ret_norm : NormalizerAPI := SpecNormalizers toy_eps ret_update.

(** [NormalizedEnvWrapper("toy", n_envs=2, max_episode_length=2)] with the
    return-style reward normalizer. *)
Definition started_ret : @state toy_env ret_norm :=
  match @__init__ toy_env ret_norm "toy" 2 1 2 0.5%float
          (Some true) None (Some true) None 1 ∅ world0 with
  | (Ok w, σ) => (w, σ)
  | (Raise _, σ) =>
      (@Wrapper toy_env ret_norm 0 [] None None None None None None
         SBase SBase None, σ)
  end.

(** Two training steps, with and without an evaluation step between
    them. *)
Definition trained_with_eval : @state toy_env ret_norm :=
  @run_ops toy_env ret_norm
    [@OpStep toy_env acts; @OpStepTest toy_env acts; @OpStep toy_env acts]
    started_ret.

Definition trained_without_eval : @state toy_env ret_norm :=
  @run_ops toy_env ret_norm
    [@OpStep toy_env acts; @OpStep toy_env acts] started_ret.

(** The first reward of a transition, zero when there is none. *)
Definition first_reward
    (r : result string (ndarray * ndarray * list bool * list unit)) : float :=
  match r with
  | Ok (_, rews, _, _) => default 0%float (head (nd_data rews))
  | Raise _ => 0%float
  end.

(** A gym whose world is the list of seeds given so far; it knows one
    environment id. *)
Definition toy_gym : GymAPI := {|
  GymWorld := list Z;
  GymEnv := nat;
  GymError := string;
  gym_make id := λ g,
    if decide (id = "toy") then (Ok (length g), g)
    else (Raise (EnvFailure "unknown environment id"), g);
  env_seed env z := λ g, (Ok (), g ++ [z])
|}.

End Toy.


(** * Properties *)

Lemma ndarray_copy_eq x : ndarray_copy x = x.
Proof. by destruct x. Qed.

(** ** The environment-set calls *)

Section WrapperFacts.
Context `{VecEnvAPI} `{NormalizerAPI}.

Ltac unfold_monad :=
  unfold step, step_test, reset, reset_test, observation_space, action_space,
    in_world, getattr, call_normalizer, reset_normalizer, set_last_obs,
    get_last_obs, mbind, mret, M_bind, M_ret, raise in *.

Lemma env_step_ok l e actions r e' σ :
  heap σ !! l = Some e →
  venv_step e actions = (inr r, e') →
  env_step (Some l) actions σ
  = (Ok r, World (<[l := e']> (heap σ)) (trace σ ++ [EvEnvStep l actions])).
Proof. intros Hl He. unfold env_step. by rewrite Hl, He. Qed.

Lemma env_reset_ok l e obs e' σ :
  heap σ !! l = Some e →
  venv_reset e = (inr obs, e') →
  env_reset (Some l) σ
  = (Ok obs, World (<[l := e']> (heap σ)) (trace σ ++ [EvEnvReset l])).
Proof. intros Hl He. unfold env_reset. by rewrite Hl, He. Qed.

Lemma env_space_ok name get l e σ :
  heap σ !! l = Some e →
  env_space name get (Some l) σ = (Ok (get e), σ).
Proof. intros Hl. unfold env_space. by rewrite Hl. Qed.

Lemma step_run w σ actions l e obs rews dones infos e' :
  envs w = Some l →
  heap σ !! l = Some e →
  venv_step e actions = (inr (obs, rews, dones, infos), e') →
  step actions (w, σ)
  = (Ok ((norm_call (state_normalizer w) obs true).1,
         (norm_call (reward_normalizer w) rews true).1, dones, infos),
     (Wrapper (max_episode_length w) (env_fns w) (envs w) (envs_test w)
        (norm_obs w) (clip_obs w) (norm_rewards w) (clip_rewards w)
        (norm_reset (norm_call (state_normalizer w) obs true).2 (Some dones))
        (norm_reset (norm_call (reward_normalizer w) rews true).2 (Some dones))
        (Some (norm_call (state_normalizer w) obs true).1),
      World (<[l := e']> (heap σ))
        (trace σ ++ [EvEnvStep l actions;
                     EvNormCall StateNormalizer obs true;
                     EvNormCall RewardNormalizer rews true;
                     EvNormReset StateNormalizer (Some dones);
                     EvNormReset RewardNormalizer (Some dones)]))).
Proof.
  intros Hh Hl He. unfold_monad. cbn. rewrite Hh.
  rewrite (env_step_ok _ _ _ _ _ _ Hl He). cbn.
  rewrite ndarray_copy_eq. unfold log. cbn.
  by rewrite <- !app_assoc, Hh.
Qed.

Lemma step_test_run w σ action l e obs rews dones infos e' :
  envs_test w = Some l →
  heap σ !! l = Some e →
  venv_step e action = (inr (obs, rews, dones, infos), e') →
  step_test action (w, σ)
  = (Ok ((norm_call (state_normalizer w) obs false).1, rews, dones, infos),
     (set_norm StateNormalizer (norm_call (state_normalizer w) obs false).2 w,
      World (<[l := e']> (heap σ))
        (trace σ ++ [EvEnvStep l action;
                     EvNormCall StateNormalizer obs false]))).
Proof.
  intros Hh Hl He. unfold_monad. cbn. rewrite Hh.
  rewrite (env_step_ok _ _ _ _ _ _ Hl He). cbn. unfold log. cbn.
  by rewrite <- !app_assoc, Hh.
Qed.

Lemma reset_test_run w σ l e obs e' :
  envs_test w = Some l →
  heap σ !! l = Some e →
  venv_reset e = (inr obs, e') →
  reset_test (w, σ)
  = (Ok (norm_call (state_normalizer w) obs false).1,
     (set_norm StateNormalizer (norm_call (state_normalizer w) obs false).2 w,
      World (<[l := e']> (heap σ))
        (trace σ ++ [EvEnvReset l; EvNormCall StateNormalizer obs false]))).
Proof.
  intros Hh Hl He. unfold_monad. cbn. rewrite Hh.
  rewrite (env_reset_ok _ _ _ _ _ Hl He). cbn. unfold log. cbn.
  by rewrite <- !app_assoc, Hh.
Qed.

Lemma reset_run w σ l e obs e' :
  envs w = Some l →
  heap σ !! l = Some e →
  venv_reset e = (inr obs, e') →
  reset (w, σ)
  = (Ok (norm_call (norm_reset (state_normalizer w) None) obs true).1,
     (Wrapper (max_episode_length w) (env_fns w) (envs w) (envs_test w)
        (norm_obs w) (clip_obs w) (norm_rewards w) (clip_rewards w)
        (norm_call (norm_reset (state_normalizer w) None) obs true).2
        (norm_reset (reward_normalizer w) None)
        (last_obs w),
      World (<[l := e']> (heap σ))
        (trace σ ++ [EvNormReset StateNormalizer None;
                     EvNormReset RewardNormalizer None;
                     EvEnvReset l;
                     EvNormCall StateNormalizer obs true]))).
Proof.
  intros Hh Hl He. unfold_monad. cbn. rewrite Hh.
  unfold env_reset, log. cbn. rewrite Hl, He. cbn.
  by rewrite <- !app_assoc.
Qed.

(** *** What no operation touches *)

Lemma handles_kept_refl s : handles_kept s s.
Proof. by repeat split. Qed.

Lemma is_Some_insert_heap (h : gmap loc venv) l l' e :
  is_Some (h !! l') → is_Some (<[l := e]> h !! l').
Proof. intros ?. rewrite lookup_insert_is_Some. destruct (decide (l = l')); auto. Qed.

Ltac crush_handles :=
  repeat split; cbn; auto using is_Some_insert_heap;
  repeat match goal with w : NormalizedEnvWrapper |- _ => destruct w end;
  cbn; auto using is_Some_insert_heap.

Lemma step_handles a s : handles_kept s (step a s).2.
Proof.
  destruct s as [w σ]. unfold handles_kept, env_step. unfold_monad.
  unfold env_step. cbn.
  repeat (case_match; simplify_eq/=); crush_handles.
Qed.

Lemma step_test_handles a s : handles_kept s (step_test a s).2.
Proof.
  destruct s as [w σ]. unfold handles_kept. unfold_monad.
  unfold env_step. cbn.
  repeat (case_match; simplify_eq/=); crush_handles.
Qed.

Lemma reset_handles s : handles_kept s (reset s).2.
Proof.
  destruct s as [w σ]. unfold handles_kept. unfold_monad.
  unfold env_reset. cbn.
  repeat (case_match; simplify_eq/=); crush_handles.
Qed.

Lemma reset_test_handles s : handles_kept s (reset_test s).2.
Proof.
  destruct s as [w σ]. unfold handles_kept. unfold_monad.
  unfold env_reset. cbn.
  repeat (case_match; simplify_eq/=); crush_handles.
Qed.

Lemma observation_space_pure s : (observation_space s).2 = s.
Proof.
  destruct s as [w σ]. unfold_monad. unfold env_space. cbn.
  by repeat (case_match; simplify_eq/=).
Qed.

Lemma action_space_pure s : (action_space s).2 = s.
Proof.
  destruct s as [w σ]. unfold_monad. unfold env_space. cbn.
  by repeat (case_match; simplify_eq/=).
Qed.

Lemma run_op_handles o s : handles_kept s (run_op o s).
Proof.
  destruct o; cbn.
  - apply step_handles.
  - apply step_test_handles.
  - apply reset_handles.
  - apply reset_test_handles.
  - rewrite observation_space_pure. apply handles_kept_refl.
  - rewrite action_space_pure. apply handles_kept_refl.
Qed.


(** *** Construction *)

Lemma partial_make_run env_id seed mel nobs (kwargs : gmap string KwVal)
    (σ : world) :
  partial_make env_id seed mel nobs kwargs σ
  = (Ok (MkEnvFn env_id seed mel nobs kwargs), σ)
  ∨ ∃ e, partial_make env_id seed mel nobs kwargs σ = (Raise e, σ).
Proof. unfold partial_make. case_decide; [right|left]; eauto. Qed.

Lemma mapM_partial_make env_id seed mel nobs (kwargs : gmap string KwVal)
    (ixs : list Z) (σ σ' : world) r :
  mapM (λ i, partial_make env_id (seed + i) mel nobs kwargs) ixs σ = (r, σ') →
  σ' = σ ∧
  ∀ fns, r = Ok fns →
    fns = (λ i, MkEnvFn env_id (seed + i) mel nobs kwargs) <$> ixs.
Proof.
  revert r σ'. induction ixs as [|i ixs IH]; intros r σ'; cbn.
  - unfold mret, M_ret. intros [= <- <-]. split; [done|]. by intros fns [= <-].
  - unfold mbind, M_bind.
    destruct (partial_make_run env_id (seed + i) mel nobs kwargs σ)
      as [->|[e ->]].
    + destruct (mapM _ ixs σ) as [r1 σ1] eqn:Hrec.
      destruct (IH _ _ eq_refl) as [-> Hfns].
      destruct r1 as [fns1|e1]; cbn.
      * unfold mret, M_ret. intros [= <- <-]. split; [done|].
        intros fns [= <-]. by rewrite (Hfns _ eq_refl).
      * intros [= <- <-]. split; [done|]. by intros fns [=].
    + intros [= <- <-]. split; [done|]. by intros fns [=].
Qed.

Lemma init_run env_id n_envs n_test_envs mel gamma nobs cobs nrew crew seed
    kwargs σ0 w σ :
  __init__ env_id n_envs n_test_envs mel gamma nobs cobs nrew crew seed kwargs σ0
  = (Ok w, σ) →
  let l := fresh (dom (heap σ0)) in
  let w0 := built env_id n_envs mel gamma nobs cobs nrew crew seed kwargs l in
  ∃ v, SubprocVecEnv (env_fns w0) = inr v ∧
    ((n_envs = 0 ∧ w = w0 ∧
      σ = World (<[l := v]> (heap σ0)) (trace σ0 ++ [EvEnvNew (env_fns w0)]))
     ∨ (n_envs ≠ 0 ∧ ∃ obs v', venv_reset v = (inr obs, v') ∧
        w = with_last_obs (Some obs) w0 ∧
        σ = World (<[l := v']> (heap σ0))
              (trace σ0 ++ [EvEnvNew (env_fns w0); EvEnvReset l]))).
Proof.
  unfold __init__. unfold mbind at 1. unfold M_bind at 1.
  destruct (mapM _ (seqZ 0 n_envs) σ0) as [r σ1] eqn:Hmap.
  destruct (mapM_partial_make _ _ _ _ _ _ _ _ _ Hmap) as [-> Hfns].
  destruct r as [fns|]; [|done]. rewrite (Hfns _ eq_refl). clear Hmap Hfns.
  unfold mbind, M_bind, new_SubprocVecEnv. cbn.
  destruct (SubprocVecEnv _) as [err|v] eqn:Hnew; [done|].
  intros Hrun. exists v. split; [done|].
  destruct (decide (n_envs = 0)) as [Hn|Hn].
  - rewrite bool_decide_eq_false_2 in Hrun by (by intros ?).
    unfold mret, M_ret in Hrun. injection Hrun as <- <-. left. by rewrite Hn.
  - rewrite bool_decide_eq_true_2 in Hrun by done.
    unfold env_reset, set_heap, log in Hrun. cbn in Hrun.
    rewrite lookup_insert_eq in Hrun.
    destruct (venv_reset v) as [[err|obs] v'] eqn:Hreset; [done|].
    cbn in Hrun. unfold mret, M_ret in Hrun. injection Hrun as <- <-.
    right. split; [done|]. exists obs, v'. split; [done|]. split; [done|].
    by rewrite insert_insert_eq, <- app_assoc.
Qed.

Lemma init_handles env_id n_envs n_test_envs mel gamma nobs cobs nrew crew seed
    kwargs σ0 w σ :
  __init__ env_id n_envs n_test_envs mel gamma nobs cobs nrew crew seed kwargs σ0
  = (Ok w, σ) →
  ∃ l, envs w = Some l ∧ envs_test w = Some l ∧ is_Some (heap σ !! l).
Proof.
  intros Hinit. destruct (init_run _ _ _ _ _ _ _ _ _ _ _ _ _ _ Hinit)
    as (v & _ & [(_ & -> & ->)|(_ & obs & v' & _ & -> & ->)]);
    eexists; (split; [reflexivity|]); (split; [reflexivity|]); cbn;
    by rewrite lookup_insert_eq.
Qed.

Lemma reachable_handles s :
  reachable s →
  ∃ l e, envs s.1 = Some l ∧ envs_test s.1 = Some l ∧ heap s.2 !! l = Some e.
Proof.
  induction 1 as [? ? ? ? ? ? ? ? ? ? ? ? ? ? Hinit|o s _ (l & e & He & Ht & Hl)].
  - destruct (init_handles _ _ _ _ _ _ _ _ _ _ _ _ _ _ Hinit)
      as (l & ? & ? & [e ?]). by exists l, e.
  - destruct (run_op_handles o s) as (He' & Ht' & Hl').
    destruct (Hl' l) as [e' ?]; [by rewrite Hl|].
    exists l, e'. by rewrite He', Ht'.
Qed.

Lemma run_ops_snoc os o s : run_ops (os ++ [o]) s = run_op o (run_ops os s).
Proof. unfold run_ops. by rewrite foldl_app. Qed.

Lemma run_ops_reachable os s : reachable s → reachable (run_ops os s).
Proof.
  intros Hs. induction os as [|o os IH] using rev_ind; [done|].
  rewrite run_ops_snoc. by constructor.
Qed.

(** *** The heap after an operation, whatever its result *)

Lemma step_heap a w σ l e :
  envs w = Some l → heap σ !! l = Some e →
  heap (step a (w, σ)).2.2 = <[l := (venv_step e a).2]> (heap σ).
Proof.
  intros Hh Hl. unfold_monad. unfold env_step. cbn. rewrite Hh, Hl.
  by destruct (venv_step e a) as [[err|[[[??]?]?]] e'].
Qed.

Lemma step_test_heap a w σ l e :
  envs_test w = Some l → heap σ !! l = Some e →
  heap (step_test a (w, σ)).2.2 = <[l := (venv_step e a).2]> (heap σ).
Proof.
  intros Hh Hl. unfold_monad. unfold env_step. cbn. rewrite Hh, Hl.
  by destruct (venv_step e a) as [[err|[[[??]?]?]] e'].
Qed.

Lemma reset_heap w σ l e :
  envs w = Some l → heap σ !! l = Some e →
  heap (reset (w, σ)).2.2 = <[l := (venv_reset e).2]> (heap σ).
Proof.
  intros Hh Hl. unfold_monad. unfold env_reset. cbn. rewrite Hh, Hl.
  by destruct (venv_reset e) as [[err|?] e'].
Qed.

Lemma reset_test_heap w σ l e :
  envs_test w = Some l → heap σ !! l = Some e →
  heap (reset_test (w, σ)).2.2 = <[l := (venv_reset e).2]> (heap σ).
Proof.
  intros Hh Hl. unfold_monad. unfold env_reset. cbn. rewrite Hh, Hl.
  by destruct (venv_reset e) as [[err|?] e'].
Qed.

(** *** Evaluation-mode operations and the normalizers *)

Lemma step_test_self a w σ :
  (∀ x, (norm_call (state_normalizer w) x false).2 = state_normalizer w) →
  (step_test a (w, σ)).2.1 = w.
Proof.
  intros Hlaw. unfold_monad. unfold env_step. cbn.
  repeat (case_match; simplify_eq/=); try done.
  rewrite Hlaw. destruct w; simplify_eq/=; done.
Qed.

Lemma reset_test_self w σ :
  (∀ x, (norm_call (state_normalizer w) x false).2 = state_normalizer w) →
  (reset_test (w, σ)).2.1 = w.
Proof.
  intros Hlaw. unfold_monad. unfold env_reset. cbn.
  repeat (case_match; simplify_eq/=); try done.
  rewrite Hlaw. destruct w; simplify_eq/=; done.
Qed.

Lemma eval_ops_self os s :
  (∀ x, (norm_call (state_normalizer s.1) x false).2 = state_normalizer s.1) →
  forallb is_eval_op os = true →
  (run_ops os s).1 = s.1.
Proof.
  intros Hlaw. induction os as [|o os IH] using rev_ind; [done|].
  rewrite forallb_app. intros [Hos Ho]%andb_prop. cbn in Ho.
  rewrite run_ops_snoc. specialize (IH Hos).
  destruct (run_ops os s) as [w σ] eqn:Hrun. cbn in IH. subst w.
  destruct o; try done; cbn.
  - by apply step_test_self.
  - by apply reset_test_self.
Qed.

(** *** Successful results, read backwards *)

Lemma step_ok_inv a w σ r :
  (step a (w, σ)).1 = Ok r →
  ∃ l e obs rews dones infos e',
    envs w = Some l ∧ heap σ !! l = Some e ∧
    venv_step e a = (inr (obs, rews, dones, infos), e').
Proof.
  unfold_monad. unfold env_step. cbn.
  destruct (envs w) as [l|] eqn:Hh; [|done].
  destruct (heap σ !! l) as [e|] eqn:Hl; [|done].
  destruct (venv_step e a) as [[err|[[[obs rews] dones] infos]] e'] eqn:He;
    [done|].
  intros _. by exists l, e, obs, rews, dones, infos, e'.
Qed.

Lemma reset_ok_inv w σ r :
  (reset (w, σ)).1 = Ok r →
  ∃ l e obs e',
    envs w = Some l ∧ heap σ !! l = Some e ∧ venv_reset e = (inr obs, e').
Proof.
  unfold_monad. unfold env_reset. cbn.
  destruct (envs w) as [l|] eqn:Hh; [|done].
  destruct (heap σ !! l) as [e|] eqn:Hl; [|done].
  destruct (venv_reset e) as [[err|obs] e'] eqn:He; [done|].
  intros _. by exists l, e, obs, e'.
Qed.

(** A property of the state normalizer that calls and resets keep is
    kept by every operation. *)
Lemma run_op_state_normalizer (P : normalizer → Prop) o s :
  (∀ n x u, P n → P (norm_call n x u).2) →
  (∀ n d, P n → P (norm_reset n d)) →
  P (state_normalizer s.1) → P (state_normalizer (run_op o s).1).
Proof.
  intros Hcall Hreset. destruct s as [w σ]. cbn.
  destruct o; cbn; unfold_monad; unfold env_step, env_reset, env_space; cbn;
    repeat (case_match; simplify_eq/=); auto.
Qed.

Lemma run_ops_state_normalizer (P : normalizer → Prop) os s :
  (∀ n x u, P n → P (norm_call n x u).2) →
  (∀ n d, P n → P (norm_reset n d)) →
  P (state_normalizer s.1) → P (state_normalizer (run_ops os s).1).
Proof.
  intros Hcall Hreset Hs. induction os as [|o os IH] using rev_ind; [done|].
  rewrite run_ops_snoc. by apply run_op_state_normalizer.
Qed.

(** ** The methods *)

(** C1. [step(actions)] hands [actions] to the environment set's [step];
    the observations and the rewards it returns go through the state
    normalizer and the reward normalizer with [update=True]; only then
    are both normalizers reset with the [dones] mask; the result is the
    normalized observations and rewards with [dones] and [infos] as the
    environment set returned them. *)
Theorem step_normalizes_then_resets w σ actions l e obs rews dones infos e' :
  envs w = Some l →
  heap σ !! l = Some e →
  venv_step e actions = (inr (obs, rews, dones, infos), e') →
  let sn := norm_call (state_normalizer w) obs true in
  let rn := norm_call (reward_normalizer w) rews true in
  let s' := (step actions (w, σ)).2 in
  (step actions (w, σ)).1 = Ok (sn.1, rn.1, dones, infos) ∧
  state_normalizer s'.1 = norm_reset sn.2 (Some dones) ∧
  reward_normalizer s'.1 = norm_reset rn.2 (Some dones) ∧
  last_obs s'.1 = Some sn.1 ∧
  heap s'.2 = <[l := e']> (heap σ) ∧
  trace s'.2 = trace σ ++ [EvEnvStep l actions;
                           EvNormCall StateNormalizer obs true;
                           EvNormCall RewardNormalizer rews true;
                           EvNormReset StateNormalizer (Some dones);
                           EvNormReset RewardNormalizer (Some dones)].
Proof.
  intros Hh Hl He. cbn zeta.
  by rewrite (step_run _ _ _ _ _ _ _ _ _ _ Hh Hl He).
Qed.

(** C2. [step_test(action)] steps the environment set behind the
    evaluation handle, passes the observations through the state
    normalizer with [update=False], and returns the rewards, [dones] and
    [infos] as the environment set produced them: the reward normalizer is
    neither called nor changed. *)
Theorem step_test_returns_raw_rewards w σ action l e obs rews dones infos e' :
  envs_test w = Some l →
  heap σ !! l = Some e →
  venv_step e action = (inr (obs, rews, dones, infos), e') →
  let sn := norm_call (state_normalizer w) obs false in
  let s' := (step_test action (w, σ)).2 in
  (step_test action (w, σ)).1 = Ok (sn.1, rews, dones, infos) ∧
  state_normalizer s'.1 = sn.2 ∧
  reward_normalizer s'.1 = reward_normalizer w ∧
  last_obs s'.1 = last_obs w ∧
  heap s'.2 = <[l := e']> (heap σ) ∧
  trace s'.2 = trace σ ++ [EvEnvStep l action;
                           EvNormCall StateNormalizer obs false].
Proof.
  intros Hh Hl He. cbn zeta.
  by rewrite (step_test_run _ _ _ _ _ _ _ _ _ _ Hh Hl He).
Qed.

(** C3. [reset()] resets the state normalizer and the reward normalizer
    with no mask, then resets the environment set, and returns its
    initial observations passed through the state normalizer with
    [update=True]. *)
Theorem reset_resets_normalizers_then_envs w σ l e obs e' :
  envs w = Some l →
  heap σ !! l = Some e →
  venv_reset e = (inr obs, e') →
  let sn := norm_call (norm_reset (state_normalizer w) None) obs true in
  let s' := (reset (w, σ)).2 in
  (reset (w, σ)).1 = Ok sn.1 ∧
  state_normalizer s'.1 = sn.2 ∧
  reward_normalizer s'.1 = norm_reset (reward_normalizer w) None ∧
  heap s'.2 = <[l := e']> (heap σ) ∧
  trace s'.2 = trace σ ++ [EvNormReset StateNormalizer None;
                           EvNormReset RewardNormalizer None;
                           EvEnvReset l;
                           EvNormCall StateNormalizer obs true].
Proof.
  intros Hh Hl He. cbn zeta.
  by rewrite (reset_run _ _ _ _ _ _ Hh Hl He).
Qed.

(** C5. [reset_test()] makes two calls: [reset] on the environment set
    behind the evaluation handle and the state normalizer with
    [update=False] on what it returns.  No normalizer is reset; the reward
    normalizer is the same object in the same state, so is every other
    object of the heap, and so is the whole wrapper when the state
    normalizer honours [update=False]. *)
Theorem reset_test_resets_no_normalizer w σ l e obs e' :
  envs_test w = Some l →
  heap σ !! l = Some e →
  venv_reset e = (inr obs, e') →
  let sn := norm_call (state_normalizer w) obs false in
  let s' := (reset_test (w, σ)).2 in
  (reset_test (w, σ)).1 = Ok sn.1 ∧
  trace s'.2 = trace σ ++ [EvEnvReset l;
                           EvNormCall StateNormalizer obs false] ∧
  reward_normalizer s'.1 = reward_normalizer w ∧
  state_normalizer s'.1 = sn.2 ∧
  (sn.2 = state_normalizer w → s'.1 = w) ∧
  heap s'.2 = <[l := e']> (heap σ) ∧
  (∀ l', l' ≠ l → heap s'.2 !! l' = heap σ !! l').
Proof.
  intros Hh Hl He. cbn zeta.
  rewrite (reset_test_run _ _ _ _ _ _ Hh Hl He). cbn.
  repeat split.
  - intros ->. by destruct w.
  - intros l' Hne. by rewrite lookup_insert_ne.
Qed.

(** ** The handles *)

(** C9. In every state a caller can reach, [envs_test] and [envs] are the
    same handle to one live environment set, so [step_test] leaves the
    heap exactly as [step] does and [reset_test] exactly as [reset] does:
    the object behind the training handle is the one they advance and
    reset. *)
Theorem envs_test_is_envs s :
  reachable s →
  ∃ l e,
    envs s.1 = Some l ∧ envs_test s.1 = Some l ∧ heap s.2 !! l = Some e ∧
    (∀ a, heap (step_test a s).2.2 = <[l := (venv_step e a).2]> (heap s.2) ∧
          heap (step_test a s).2.2 = heap (step a s).2.2) ∧
    heap (reset_test s).2.2 = <[l := (venv_reset e).2]> (heap s.2) ∧
    heap (reset_test s).2.2 = heap (reset s).2.2.
Proof.
  intros (l & e & He & Ht & Hl)%reachable_handles.
  destruct s as [w σ]. cbn in *. exists l, e. repeat split; try done.
  - by apply step_test_heap.
  - by rewrite (step_test_heap _ _ _ _ _ Ht Hl), (step_heap _ _ _ _ _ He Hl).
  - by apply reset_test_heap.
  - by rewrite (reset_test_heap _ _ _ _ Ht Hl), (reset_heap _ _ _ _ He Hl).
Qed.

Lemma init_needs_envs env_id n_envs n_test_envs mel gamma nobs cobs nrew crew
    seed kwargs σ0 w σ err :
  __init__ env_id n_envs n_test_envs mel gamma nobs cobs nrew crew seed kwargs σ0
  = (Ok w, σ) →
  SubprocVecEnv [] = inl err →
  0 < n_envs.
Proof.
  intros Hinit Hempty.
  destruct (init_run _ _ _ _ _ _ _ _ _ _ _ _ _ _ Hinit) as (v & Hnew & _).
  destruct (decide (0 < n_envs)) as [|Hn]; [done|].
  cbn in Hnew. rewrite seqZ_nil in Hnew by lia. cbn in Hnew. congruence.
Qed.

(** C6, as the code has it.  [observation_space] and [action_space] read
    the space of the environment set behind [envs] when that handle is
    not [None], and of the one behind [envs_test] when it is.  [__init__]
    assigns [envs] whenever it returns, so after a successful
    construction, and after any operations since, [envs] is a handle to a
    live environment set, the same as [envs_test], and it is the first
    branch that answers.  There is no construction without a training
    environment set: [n_envs = 0] hands the library an empty list of
    constructors, and with a library that rejects it, as [SubprocVecEnv]
    does, every constructed wrapper has [n_envs > 0]. *)
Theorem space_properties_read_envs env_id n_envs n_test_envs mel gamma nobs
    cobs nrew crew seed kwargs σ0 w σ os :
  __init__ env_id n_envs n_test_envs mel gamma nobs cobs nrew crew seed kwargs σ0
  = (Ok w, σ) →
  let s := run_ops os (w, σ) in
  (∃ l e,
     envs s.1 = Some l ∧ envs_test s.1 = Some l ∧ heap s.2 !! l = Some e ∧
     observation_space s = (Ok (venv_observation_space e), s) ∧
     action_space s = (Ok (venv_action_space e), s)) ∧
  (∀ w' σ' l e, envs w' = Some l → heap σ' !! l = Some e →
     observation_space (w', σ') = (Ok (venv_observation_space e), (w', σ')) ∧
     action_space (w', σ') = (Ok (venv_action_space e), (w', σ'))) ∧
  (∀ w' σ' l e, envs w' = None → envs_test w' = Some l → heap σ' !! l = Some e →
     observation_space (w', σ') = (Ok (venv_observation_space e), (w', σ')) ∧
     action_space (w', σ') = (Ok (venv_action_space e), (w', σ'))) ∧
  (∀ err, SubprocVecEnv [] = inl err → 0 < n_envs).
Proof.
  intros Hinit s.
  assert (Hfirst : ∀ w' σ' l e, envs w' = Some l → heap σ' !! l = Some e →
     observation_space (w', σ') = (Ok (venv_observation_space e), (w', σ')) ∧
     action_space (w', σ') = (Ok (venv_action_space e), (w', σ'))).
  { intros w' σ' l e Hh Hl. unfold_monad. cbn. rewrite Hh.
    by rewrite !(env_space_ok _ _ _ _ _ Hl). }
  split; [|split; [done|split]].
  - assert (Hr : reachable s).
    { apply run_ops_reachable. by econstructor. }
    destruct (reachable_handles _ Hr) as (l & e & He & Ht & Hl).
    exists l, e. destruct s as [w1 σ1]. cbn in *.
    by destruct (Hfirst _ _ _ _ He Hl).
  - intros w' σ' l e Hh Ht Hl. unfold_monad. cbn. rewrite Hh. cbn. rewrite Ht.
    by rewrite !(env_space_ok _ _ _ _ _ Hl).
  - intros err. by apply (init_needs_envs _ _ _ _ _ _ _ _ _ _ _ _ _ _ _ Hinit).
Qed.

(** ** Construction and [last_obs] *)

Lemma step_ignores_last_obs actions o w σ :
  (step actions (with_last_obs o w, σ)).1 = (step actions (w, σ)).1 ∧
  (step actions (with_last_obs o w, σ)).2.2 = (step actions (w, σ)).2.2.
Proof.
  unfold_monad. unfold env_step. cbn.
  by repeat (case_match; simplify_eq/=).
Qed.

Lemma step_no_last_obs_error actions s :
  (step actions s).1 ≠ Raise (AttributeError "last_obs").
Proof.
  destruct s as [w σ]. unfold_monad. unfold env_step. cbn.
  by repeat (case_match; simplify_eq/=).
Qed.

Lemma step_raise_inv actions w σ l v e :
  envs w = Some l → heap σ !! l = Some v →
  (step actions (w, σ)).1 = Raise e →
  ∃ err, (venv_step v actions).1 = inl err ∧ e = EnvFailure err.
Proof.
  intros Hh Hl. unfold_monad. unfold env_step. cbn. rewrite Hh, Hl.
  destruct (venv_step v actions) as [[err|[[[??]?]?]] v']; cbn; [|done].
  intros [= <-]. by exists err.
Qed.

Lemma step_raises_with_envs actions w σ l v err :
  envs w = Some l → heap σ !! l = Some v →
  (venv_step v actions).1 = inl err →
  (step actions (w, σ)).1 = Raise (EnvFailure err).
Proof.
  intros Hh Hl. unfold_monad. unfold env_step. cbn. rewrite Hh, Hl.
  destruct (venv_step v actions) as [[err'|r] v']; cbn; [|done].
  by intros [= ->].
Qed.

(** C7, as the code has it.  [n_envs = 0] hands the library an empty list
    of constructors: with a library that rejects it, as [SubprocVecEnv]
    does, the construction raises and there is no instance, so every
    constructed wrapper has [n_envs > 0].  With one that accepts it, the
    construction makes no [reset] call and leaves [last_obs] undefined,
    and the environment set is as its constructor left it.  A
    construction with [n_envs ≠ 0] resets the new environment set once
    and stores the observations it returns in [last_obs].  [step] assigns
    [last_obs] before it reads it: its result and the world it leaves are
    the same whatever [last_obs] was, defined or not, and it raises
    exactly when the environment set's own [step] raises, with that
    error, whatever it is for an environment set never reset. *)
Theorem init_seeds_last_obs_unless_no_envs env_id n_envs n_test_envs mel gamma
    nobs cobs nrew crew seed kwargs σ0 w σ :
  __init__ env_id n_envs n_test_envs mel gamma nobs cobs nrew crew seed kwargs σ0
  = (Ok w, σ) →
  let l := fresh (dom (heap σ0)) in
  (∀ err, SubprocVecEnv [] = inl err → 0 < n_envs) ∧
  (n_envs = 0 →
     last_obs w = None ∧ trace σ = trace σ0 ++ [EvEnvNew []] ∧
     ∃ v, SubprocVecEnv [] = inr v ∧ heap σ !! l = Some v) ∧
  (n_envs ≠ 0 →
     ∃ v obs v', SubprocVecEnv (env_fns w) = inr v ∧
       venv_reset v = (inr obs, v') ∧ last_obs w = Some obs ∧
       heap σ !! l = Some v' ∧
       trace σ = trace σ0 ++ [EvEnvNew (env_fns w); EvEnvReset l]) ∧
  (∀ actions o,
     (step actions (with_last_obs o w, σ)).1 = (step actions (w, σ)).1 ∧
     (step actions (with_last_obs o w, σ)).2.2 = (step actions (w, σ)).2.2) ∧
  (∀ actions, (step actions (w, σ)).1 ≠ Raise (AttributeError "last_obs")) ∧
  (∀ actions e, (step actions (w, σ)).1 = Raise e →
     ∃ v err, heap σ !! l = Some v ∧
       (venv_step v actions).1 = inl err ∧ e = EnvFailure err) ∧
  (∀ actions v err, heap σ !! l = Some v →
     (venv_step v actions).1 = inl err →
     (step actions (w, σ)).1 = Raise (EnvFailure err)).
Proof.
  intros Hinit l.
  split; [intros err; by apply (init_needs_envs _ _ _ _ _ _ _ _ _ _ _ _ _ _ _ Hinit)|].
  destruct (init_run _ _ _ _ _ _ _ _ _ _ _ _ _ _ Hinit)
    as (v & Hnew & [(Hn & -> & ->)|(Hn & obs & v' & Hreset & -> & ->)]);
    (split; [|split; [|split; [|split; [|split]]]]);
    auto using step_ignores_last_obs, step_no_last_obs_error; try done.
  - intros _. cbn in Hnew. rewrite Hn in Hnew |- *. cbn in Hnew |- *.
    split; [done|]. split; [done|]. exists v. split; [done|].
    apply lookup_insert_eq.
  - intros actions e Hraise. exists v.
    eapply (step_raise_inv _ _ _ l v) in Hraise as (err & ? & ?);
      [|reflexivity|apply lookup_insert_eq].
    exists err. split; [apply lookup_insert_eq|done].
  - intros actions v1 err Hl. by apply (step_raises_with_envs _ _ _ l v1).
  - intros _. exists v, obs, v'. repeat (split; [done|]).
    split; [apply lookup_insert_eq|done].
  - intros actions e Hraise. exists v'.
    eapply (step_raise_inv _ _ _ l v') in Hraise as (err & ? & ?);
      [|reflexivity|apply lookup_insert_eq].
    exists err. split; [apply lookup_insert_eq|done].
  - intros actions v1 err Hl. by apply (step_raises_with_envs _ _ _ l v1).
Qed.

End WrapperFacts.

(** ** The normalizers as the spec describes them *)

Section SpecFacts.
Context `{VecEnvAPI}.
Variable eps : float.
Variable moments_update :
  NormalizerConfig → RunningMoments → list float → ndarray →
  RunningMoments * list float.

Let spec : NormalizerAPI := SpecNormalizers eps moments_update.
#[local] Existing Instance spec | 0.

Lemma spec_call_no_update n x :
  (spec_call eps moments_update n x false).2 = n.
Proof. induction n as [|prev IH cfg rm slots]; cbn; [done|]. by rewrite IH. Qed.

Lemma feed_app n ops1 ops2 :
  feed eps moments_update n (ops1 ++ ops2)
  = ((feed eps moments_update n ops1).1
       ++ (feed eps moments_update (feed eps moments_update n ops1).2 ops2).1,
     (feed eps moments_update (feed eps moments_update n ops1).2 ops2).2).
Proof.
  revert n. induction ops1 as [|[x u|d] ops1 IH]; intros n; cbn.
  - by destruct (feed _ _ n ops2).
  - by rewrite IH.
  - by rewrite IH.
Qed.

Lemma feed_eval_calls n ops :
  forallb is_eval_call ops = true → (feed eps moments_update n ops).2 = n.
Proof.
  induction ops as [|[x [|]|d] ops IH]; cbn; try done.
  intros Hops. by rewrite spec_call_no_update, IH.
Qed.

Lemma transform_passthrough cfg rm x :
  center cfg = false → scale cfg = false → clip cfg = None →
  transform eps cfg rm x = x.
Proof.
  intros Hc Hs Hk. unfold transform, transform_elem. rewrite Hc, Hs, Hk.
  destruct x as [sh data]. cbn. f_equal.
  change (imap (const id) data = data).
  by rewrite imap_const, list_fmap_id.
Qed.
Lemma passthrough_call n x u :
  is_passthrough n = true →
  (spec_call eps moments_update n x u).1 = x ∧
  is_passthrough (spec_call eps moments_update n x u).2 = true.
Proof.
  revert x. induction n as [|prev IH cfg rm slots]; intros x; cbn; [done|].
  intros (((Hp & Hc%negb_true_iff)%andb_prop & Hs%negb_true_iff)%andb_prop
          & Hk%bool_decide_eq_true)%andb_prop.
  destruct (IH x Hp) as [Hx Hp']. rewrite Hx, Hp', Hc, Hs, Hk. cbn.
  split; [|done]. by apply transform_passthrough.
Qed.

Lemma passthrough_reset n d :
  is_passthrough n = true →
  is_passthrough (spec_reset n d) = true.
Proof.
  revert d. induction n as [|prev IH cfg rm slots]; intros d; cbn; [done|].
  intros (((Hp & Hc)%andb_prop & Hs)%andb_prop & Hk)%andb_prop.
  destruct d as [d|]; cbn; by rewrite (IH _ Hp), Hc, Hs, Hk.
Qed.

Lemma passthrough_feed n ops :
  is_passthrough n = true →
  (feed eps moments_update n ops).1 = inputs ops.
Proof.
  revert n. induction ops as [|[x u|d] ops IH]; intros n Hn; cbn; [done|..].
  - destruct (passthrough_call n x u Hn) as [-> Hn']. by rewrite IH.
  - by rewrite IH by by apply passthrough_reset.
Qed.

(** C8.  A normalizer that neither centres nor scales nor clips returns
    every sample as it came, for either value of [update]; whatever it
    does to its accumulators cannot be seen in any run of calls and
    resets, whose outputs are the inputs and so the same for any two
    states of the accumulators.  [BaseNormalizer], which the wrapper uses
    as its state normalizer, is such a normalizer, and has no state to
    change. *)
Theorem passthrough_normalizer_is_identity n :
  is_passthrough n = true →
  (∀ x u, (spec_call eps moments_update n x u).1 = x) ∧
  (∀ ops, (feed eps moments_update n ops).1 = inputs ops) ∧
  (∀ prev cfg rm slots rm' slots' ops,
     n = SMovingAvg prev cfg rm slots →
     (feed eps moments_update (SMovingAvg prev cfg rm' slots') ops).1
     = (feed eps moments_update n ops).1) ∧
  is_passthrough (@BaseNormalizer spec) = true ∧
  (∀ x u, norm_call (@BaseNormalizer spec) x u = (x, @BaseNormalizer spec)) ∧
  (∀ d, norm_reset (@BaseNormalizer spec) d = @BaseNormalizer spec).
Proof.
  intros Hn. split; [|split; [|split]]; [..|done].
  - intros x u. by destruct (passthrough_call n x u Hn).
  - intros ops. by apply passthrough_feed.
  - intros prev cfg rm slots rm' slots' ops ->.
    rewrite !passthrough_feed; done.
Qed.

(** C4, as the code has it.  The evaluation-mode operations [step_test]
    and [reset_test], in any number and order, leave the wrapper, and
    with it both normalizers, as they found it: a call of either
    normalizer with [update=True] right after them gives what it would
    have given right before them, and all that later operations can see
    of them is the world they left, in which the one shared environment
    set has moved on.  For a normalizer on its own: calls with
    [update=False] inserted anywhere in a run leave the same normalizer
    at the end and the same outputs for the calls after them. *)
Theorem evaluation_leaves_normalizers (s : state) (os : list op) :
  forallb is_eval_op os = true →
  let s' := run_ops os s in
  s'.1 = s.1 ∧
  (∀ a x, norm_call (get_norm a s'.1) x true
          = norm_call (get_norm a s.1) x true) ∧
  (∀ later, outs later s' = outs later (s.1, s'.2)) ∧
  (∀ n before evals after,
     forallb is_eval_call evals = true →
     (feed eps moments_update n (before ++ evals ++ after)).2
     = (feed eps moments_update n (before ++ after)).2 ∧
     (feed eps moments_update
        (feed eps moments_update n (before ++ evals)).2 after).1
     = (feed eps moments_update
          (feed eps moments_update n before).2 after).1).
Proof.
  intros Hos s'.
  assert (Hs : s'.1 = s.1).
  { apply eval_ops_self; [|done]. intros x. apply spec_call_no_update. }
  split; [done|]. split; [|split].
  - intros a x. by rewrite Hs.
  - intros later. rewrite <- Hs. by destruct s'.
  - intros n before evals after Hev.
    rewrite !feed_app. cbn. by rewrite !(feed_eval_calls _ evals Hev).
Qed.

(** C10.  Whatever [norm_obs] is, a constructed wrapper has the
    pass-through [BaseNormalizer] as its state normalizer, and keeps it
    through every operation.  [norm_obs] goes into the attribute of that
    name and into [normalize_obs] of every environment constructor and
    nowhere else; the reward normalizer does not depend on it.  The
    observations that [step] and [reset] return are the ones the
    environment set returned. *)
Theorem state_normalizer_is_base env_id n_envs n_test_envs mel gamma nobs
    cobs nrew crew seed kwargs σ0 w σ os :
  __init__ env_id n_envs n_test_envs mel gamma nobs cobs nrew crew seed kwargs σ0
  = (Ok w, σ) →
  let s := run_ops os (w, σ) in
  state_normalizer w = SBase ∧
  state_normalizer s.1 = SBase ∧
  norm_obs w = nobs ∧
  env_fns w = (λ i, MkEnvFn env_id (seed + i) mel nobs kwargs) <$> seqZ 0 n_envs ∧
  reward_normalizer w
  = (if truthy nrew then spec_new SBase [] false true gamma crew else SBase) ∧
  (∀ a r, (step a s).1 = Ok r →
     ∃ l e raw, envs s.1 = Some l ∧ heap s.2 !! l = Some e ∧
       (venv_step e a).1 = inr raw ∧ r.1.1.1 = raw.1.1.1) ∧
  (∀ r, (reset s).1 = Ok r →
     ∃ l e, envs s.1 = Some l ∧ heap s.2 !! l = Some e ∧
       (venv_reset e).1 = inr r).
Proof.
  intros Hinit s.
  assert (Hw : state_normalizer w = SBase ∧ norm_obs w = nobs ∧
    env_fns w = (λ i, MkEnvFn env_id (seed + i) mel nobs kwargs) <$> seqZ 0 n_envs ∧
    reward_normalizer w
    = (if truthy nrew then spec_new SBase [] false true gamma crew else SBase)).
  { destruct (init_run _ _ _ _ _ _ _ _ _ _ _ _ _ _ Hinit)
      as (v & _ & [(_ & -> & _)|(_ & obs & v' & _ & -> & _)]); cbn;
      by destruct (truthy nrew). }
  destruct Hw as (Hsn & Hno & Hfns & Hrn).
  assert (Hs : state_normalizer s.1 = SBase).
  { apply (@run_ops_state_normalizer _ spec (λ n, n = SBase));
      [| |done].
    - by intros n x u ->.
    - by intros n d ->. }
  repeat (split; [done|]). destruct s as [w1 σ1]. cbn in Hs. cbn [fst snd].
  split.
  - intros a r Hr.
    destruct (step_ok_inv _ _ _ _ Hr)
      as (l & e & obs & rews & dones & infos & e' & Hh & Hl & He).
    rewrite (step_run _ _ _ _ _ _ _ _ _ _ Hh Hl He), Hs in Hr.
    injection Hr as <-. exists l, e, (obs, rews, dones, infos).
    by rewrite He.
  - intros r Hr.
    destruct (reset_ok_inv _ _ _ Hr) as (l & e & obs & e' & Hh & Hl & He).
    rewrite (reset_run _ _ _ _ _ _ Hh Hl He), Hs in Hr.
    injection Hr as <-. exists l, e. by rewrite He.
Qed.

End SpecFacts.

(** ** The wrapper on the small environment set *)

Section ToyRuns.
Import Toy.
#[local] Existing Instance toy_env.
#[local] Existing Instance toy_norm.

Lemma construct_2 : construct 2 = (Ok w2, σ2).
Proof. reflexivity. Qed.

Lemma construct_0 : construct 0 = (Ok w0, σ0).
Proof. reflexivity. Qed.

Lemma step_normalizes_then_resets_witness :
  (step acts (w2, σ2)).1
  = Ok (NdArray [2; 1]%nat [1; 3]%float, NdArray [2%nat] [0.5; 1.5]%float,
        [false; false], [(); ()]).
Proof.
  refine (proj1 (@step_normalizes_then_resets toy_env toy_norm w2 σ2 acts
                   1%positive _ (NdArray [2; 1]%nat acts) (NdArray [2%nat] acts)
                   [false; false] [(); ()] _ _ _ _)); reflexivity.
Defined.

Lemma step_test_returns_raw_rewards_witness :
  (step_test acts (w2, σ2)).1
  = Ok (NdArray [2; 1]%nat [1; 3]%float, NdArray [2%nat] [1; 3]%float,
        [false; false], [(); ()]).
Proof.
  refine (proj1 (@step_test_returns_raw_rewards toy_env toy_norm w2 σ2 acts
                   1%positive _ (NdArray [2; 1]%nat acts) (NdArray [2%nat] acts)
                   [false; false] [(); ()] _ _ _ _)); reflexivity.
Defined.

Lemma reset_resets_normalizers_then_envs_witness :
  (reset (w2, σ2)).1 = Ok (NdArray [2; 1]%nat [0; 0]%float).
Proof.
  refine (proj1 (@reset_resets_normalizers_then_envs toy_env toy_norm w2 σ2
                   1%positive _ (NdArray [2; 1]%nat [0; 0]%float) _ _ _ _));
    reflexivity.
Defined.

Lemma reset_test_resets_no_normalizer_witness :
  reward_normalizer (reset_test (w2, σ2)).2.1 = reward_normalizer w2.
Proof.
  refine (proj1 (proj2 (proj2 (@reset_test_resets_no_normalizer toy_env
                   toy_norm w2 σ2 1%positive _
                   (NdArray [2; 1]%nat [0; 0]%float) _ _ _ _)))); reflexivity.
Defined.

Lemma envs_test_is_envs_witness :
  ∃ l e,
    envs w2 = Some l ∧ envs_test w2 = Some l ∧ heap σ2 !! l = Some e ∧
    (∀ a, heap (step_test a (w2, σ2)).2.2 = <[l := (venv_step e a).2]> (heap σ2) ∧
          heap (step_test a (w2, σ2)).2.2 = heap (step a (w2, σ2)).2.2) ∧
    heap (reset_test (w2, σ2)).2.2 = <[l := (venv_reset e).2]> (heap σ2) ∧
    heap (reset_test (w2, σ2)).2.2 = heap (reset (w2, σ2)).2.2.
Proof.
  apply (@envs_test_is_envs toy_env toy_norm (w2, σ2)).
  apply (reachable_init "toy" 2 1 2 0.5%float (Some true) None (Some true)
           None 1 ∅ world0).
  reflexivity.
Defined.
Lemma space_properties_read_envs_witness :
  ∃ l e,
    envs wS = Some l ∧ envs_test wS = Some l ∧ heap σS !! l = Some e ∧
    @observation_space strict_env toy_norm (wS, σS)
    = (Ok (@venv_observation_space strict_env e), (wS, σS)) ∧
    @action_space strict_env toy_norm (wS, σS)
    = (Ok (@venv_action_space strict_env e), (wS, σS)).
Proof.
  refine (proj1 (@space_properties_read_envs strict_env toy_norm "toy" 1 1 2
                   0.5%float (Some true) None (Some true) None 1 ∅
                   (@World strict_env ∅ []) wS σS [] _)).
  reflexivity.
Defined.

(** C6 as stated does not hold: there is no construction in which the
    training environment set is missing.  With a library that rejects an
    empty list of constructors, as [SubprocVecEnv] does, [n_envs = 0]
    raises at the creation of the environment set and gives no wrapper;
    and with any library at all, a wrapper constructed with [n_envs = 0]
    has a training handle to a live environment set. *)
Lemma no_construction_without_training_envs :
  construct_strict 0 2
  = (Raise (EnvFailure "need at least one environment"),
     @World strict_env ∅ [@EvEnvNew strict_env []]) ∧
  (∀ (V : VecEnvAPI) (N : NormalizerAPI) env_id n_test_envs mel gamma nobs
     cobs nrew crew seed kwargs σ0 w σ,
     @__init__ V N env_id 0 n_test_envs mel gamma nobs cobs nrew crew seed
       kwargs σ0 = (Ok w, σ) →
     envs w ≠ None ∧
     ∃ l, envs w = Some l ∧ envs_test w = Some l ∧ is_Some (heap σ !! l)).
Proof.
  split; [reflexivity|].
  intros V N env_id nt mel gamma nobs cobs nrew crew seed kwargs σ0 w σ Hinit.
  destruct (init_handles _ _ _ _ _ _ _ _ _ _ _ _ _ _ Hinit) as (l & He & Ht & Hl).
  split; [by rewrite He|]. by exists l.
Qed.

Lemma init_seeds_last_obs_unless_no_envs_witness :
  (∃ v obs v',
     @SubprocVecEnv strict_env (env_fns wS) = inr v ∧
     @venv_reset strict_env v = (inr obs, v') ∧
     last_obs wS = Some obs ∧
     heap σS !! 1%positive = Some v' ∧
     trace σS = [@EvEnvNew strict_env (env_fns wS); EvEnvReset 1%positive]) ∧
  (last_obs w0 = None ∧ trace σ0 = [EvEnvNew []] ∧
   ∃ v, @SubprocVecEnv toy_env [] = inr v ∧ heap σ0 !! 1%positive = Some v).
Proof.
  split.
  - refine (proj1 (proj2 (proj2
              (@init_seeds_last_obs_unless_no_envs strict_env toy_norm "toy" 1
                 1 2 0.5%float (Some true) None (Some true) None 1 ∅
                 (@World strict_env ∅ []) wS σS _))) _);
      [reflexivity|lia].
  - refine (proj1 (proj2
              (@init_seeds_last_obs_unless_no_envs toy_env toy_norm "toy" 0
                 1 2 0.5%float (Some true) None (Some true) None 1 ∅ world0
                 w0 σ0 _)) _); reflexivity.
Defined.

(** C7 as stated does not hold: with a library that rejects an empty list
    of constructors, as [SubprocVecEnv] does, a construction with
    [n_envs = 0] raises at the creation of the environment set, before it
    comes to the initial reset; it gives no instance whose [last_obs]
    could be undefined, for this library or any other that rejects the
    empty list. *)
Lemma n_envs_0_constructs_no_instance :
  (construct_strict 0 2).1
  = Raise (EnvFailure "need at least one environment") ∧
  trace (construct_strict 0 2).2 = [@EvEnvNew strict_env []] ∧
  (∀ (V : VecEnvAPI) (N : NormalizerAPI) env_id n_test_envs mel gamma nobs
     cobs nrew crew seed kwargs σ0 w σ err,
     @SubprocVecEnv V [] = inl err →
     @__init__ V N env_id 0 n_test_envs mel gamma nobs cobs nrew crew seed
       kwargs σ0 ≠ (Ok w, σ)).
Proof.
  split; [reflexivity|]. split; [reflexivity|].
  intros V N env_id nt mel gamma nobs cobs nrew crew seed kwargs σ0 w σ err
    Hempty Hinit.
  by pose proof (init_needs_envs _ _ _ _ _ _ _ _ _ _ _ _ _ _ _ Hinit Hempty).
Qed.

(** C4 as stated does not hold for runs of the wrapper.  Two training
    steps from the same start, with and without one [step_test] between
    them: the [step_test] leaves the wrapper as it was, but it ends the
    episode of the shared environment set, so the second training step
    sees other [dones] and resets other trackers; the reward normalizer
    is then in another state, and the next training step, on the same
    raw rewards, returns other normalized rewards. *)
Lemma evaluation_step_changes_later_training_rewards :
  (@step_test toy_env ret_norm acts
     (@run_ops toy_env ret_norm [@OpStep toy_env acts] started_ret)).2.1
  = (@run_ops toy_env ret_norm [@OpStep toy_env acts] started_ret).1 ∧
  PrimFloat.ltb
    (first_reward (@step toy_env ret_norm acts trained_with_eval).1)
    (first_reward (@step toy_env ret_norm acts trained_without_eval).1)
  = true ∧
  (@step toy_env ret_norm acts trained_with_eval).1
  ≠ (@step toy_env ret_norm acts trained_without_eval).1 ∧
  @reward_normalizer toy_env ret_norm trained_with_eval.1
  ≠ @reward_normalizer toy_env ret_norm trained_without_eval.1.
Proof.
  split; [reflexivity|]. split; [reflexivity|]. split.
  - intros Heq.
    apply (f_equal (λ r, PrimFloat.ltb (first_reward r)
      (first_reward (@step toy_env ret_norm acts trained_without_eval).1)))
      in Heq.
    vm_compute in Heq. discriminate.
  - intros Heq.
    apply (f_equal (λ n, match n with
                         | SMovingAvg _ _ _ (x :: _) => PrimFloat.ltb 0 x
                         | _ => false
                         end)) in Heq.
    vm_compute in Heq. discriminate.
Qed.

Lemma evaluation_leaves_normalizers_witness :
  (run_ops [OpStepTest acts; OpResetTest; OpStepTest []] (w2, σ2)).1 = w2.
Proof.
  refine (proj1 (@evaluation_leaves_normalizers toy_env toy_eps toy_update
                   (w2, σ2) [OpStepTest acts; OpResetTest; OpStepTest []] _)).
  reflexivity.
Defined.

Lemma passthrough_normalizer_is_identity_witness :
  (spec_call toy_eps toy_update idle (NdArray [2%nat] acts) true).1
  = NdArray [2%nat] acts.
Proof.
  refine (proj1 (passthrough_normalizer_is_identity toy_eps toy_update idle _)
            (NdArray [2%nat] acts) true).
  reflexivity.
Defined.

Lemma state_normalizer_is_base_witness :
  state_normalizer (run_ops [OpStep acts; OpReset] (w2, σ2)).1 = SBase.
Proof.
  refine (proj1 (proj2 (@state_normalizer_is_base toy_env toy_eps toy_update
                   "toy" 2 1 2 0.5%float (Some true) None (Some true) None 1 ∅
                   world0 w2 σ2 [OpStep acts; OpReset] _))).
  reflexivity.
Defined.
End ToyRuns.

(** * Further properties of the wrapper *)

Section Construction.
Context `{VecEnvAPI} `{NormalizerAPI}.

Lemma mapM_partial_make_ok env_id seed mel nobs (kwargs : gmap string KwVal)
    (ixs : list Z) (σ : world) :
  kwargs !! "normalize_obs" = None →
  mapM (λ i, partial_make env_id (seed + i) mel nobs kwargs) ixs σ
  = (Ok ((λ i, MkEnvFn env_id (seed + i) mel nobs kwargs) <$> ixs), σ).
Proof.
  intros Hk. induction ixs as [|i ixs IH]; cbn; [done|].
  unfold mbind, M_bind, partial_make at 1.
  rewrite decide_False by (rewrite Hk; by intros [? ?]).
  unfold mret at 1, M_ret at 1. by rewrite IH.
Qed.

Lemma init_env_fns env_id n_envs n_test_envs mel gamma nobs cobs nrew crew seed
    kwargs σ0 w σ :
  __init__ env_id n_envs n_test_envs mel gamma nobs cobs nrew crew seed kwargs σ0
  = (Ok w, σ) →
  env_fns w = (λ i, MkEnvFn env_id (seed + i) mel nobs kwargs) <$> seqZ 0 n_envs.
Proof.
  intros Hinit. by destruct (init_run _ _ _ _ _ _ _ _ _ _ _ _ _ _ Hinit)
    as (v & _ & [(_ & -> & _)|(_ & obs & v' & _ & -> & _)]).
Qed.

(** X1.  The constructors of a constructed wrapper: [n_envs] of them
    (none for a negative [n_envs]), with the seeds [seed], [seed + 1], ...
    in this order, so no two alike, and otherwise the same arguments. *)
Theorem func_list_seeds_are_consecutive env_id n_envs n_test_envs mel gamma
    nobs cobs nrew crew seed kwargs σ0 w σ :
  __init__ env_id n_envs n_test_envs mel gamma nobs cobs nrew crew seed kwargs σ0
  = (Ok w, σ) →
  length (env_fns w) = Z.to_nat n_envs ∧
  fn_seed <$> env_fns w = seqZ seed n_envs ∧
  NoDup (fn_seed <$> env_fns w) ∧
  Forall (λ f, fn_env_id f = env_id ∧ fn_max_episode_length f = mel ∧
               fn_normalize_obs f = nobs ∧ fn_kwargs f = kwargs) (env_fns w).
Proof.
  intros Hinit. rewrite (init_env_fns _ _ _ _ _ _ _ _ _ _ _ _ _ _ Hinit).
  assert (Hseeds : fn_seed <$>
    ((λ i, MkEnvFn env_id (seed + i) mel nobs kwargs) <$> seqZ 0 n_envs)
    = seqZ seed n_envs).
  { rewrite <- list_fmap_compose.
    change (Z.add seed <$> seqZ 0 n_envs = seqZ seed n_envs).
    by rewrite fmap_add_seqZ, Z.add_0_r. }
  split; [by rewrite length_fmap, length_seqZ|].
  split; [done|]. split; [rewrite Hseeds; apply NoDup_seqZ|].
  apply Forall_fmap, Forall_forall. by intros i _.
Qed.

(** X2.  A [normalize_obs] among the extra keyword arguments clashes with
    the one [__init__] passes by name: with at least one environment to
    build the construction raises [TypeError] before anything is created;
    with none to build the extra keyword arguments are never looked at. *)
Theorem init_rejects_duplicate_normalize_obs env_id n_envs n_test_envs mel gamma
    nobs cobs nrew crew seed kwargs σ0 :
  is_Some (kwargs !! "normalize_obs") →
  (0 < n_envs →
   __init__ env_id n_envs n_test_envs mel gamma nobs cobs nrew crew seed
     kwargs σ0
   = (Raise (TypeError "multiple values for keyword argument normalize_obs"),
      σ0)) ∧
  (n_envs ≤ 0 →
   __init__ env_id n_envs n_test_envs mel gamma nobs cobs nrew crew seed
     kwargs σ0
   = __init__ env_id n_envs n_test_envs mel gamma nobs cobs nrew crew seed
       ∅ σ0).
Proof.
  intros Hk. split; intros Hn; unfold __init__.
  - rewrite seqZ_cons by done. cbn.
    unfold mbind, M_bind, partial_make at 1. by rewrite decide_True.
  - by rewrite seqZ_nil.
Qed.

(** X3.  When the environment set cannot be created, the construction
    raises the library's error, and the heap is as it was. *)
Theorem init_propagates_constructor_failure env_id n_envs n_test_envs mel gamma
    nobs cobs nrew crew seed kwargs σ0 err :
  kwargs !! "normalize_obs" = None →
  SubprocVecEnv ((λ i, MkEnvFn env_id (seed + i) mel nobs kwargs)
                   <$> seqZ 0 n_envs) = inl err →
  __init__ env_id n_envs n_test_envs mel gamma nobs cobs nrew crew seed kwargs σ0
  = (Raise (EnvFailure err),
     World (heap σ0)
       (trace σ0 ++ [EvEnvNew ((λ i, MkEnvFn env_id (seed + i) mel nobs kwargs)
                                 <$> seqZ 0 n_envs)])).
Proof.
  intros Hk Hnew. unfold __init__. unfold mbind at 1, M_bind at 1.
  rewrite (mapM_partial_make_ok _ _ _ _ _ _ _ Hk).
  unfold mbind, M_bind, new_SubprocVecEnv. by rewrite Hnew.
Qed.

(** X4.  When the initial reset fails, the construction raises the
    library's error and returns no wrapper, but the environment set it
    created is in the heap, in the state the failed reset left it. *)
Theorem init_reset_failure_leaves_envs_behind env_id n_envs n_test_envs mel
    gamma nobs cobs nrew crew seed kwargs σ0 v err v' :
  kwargs !! "normalize_obs" = None →
  SubprocVecEnv ((λ i, MkEnvFn env_id (seed + i) mel nobs kwargs)
                   <$> seqZ 0 n_envs) = inr v →
  n_envs ≠ 0 →
  venv_reset v = (inl err, v') →
  let l := fresh (dom (heap σ0)) in
  let r := __init__ env_id n_envs n_test_envs mel gamma nobs cobs nrew crew
             seed kwargs σ0 in
  r.1 = Raise (EnvFailure err) ∧
  heap σ0 !! l = None ∧
  heap r.2 = <[l := v']> (heap σ0) ∧
  trace r.2
  = trace σ0 ++ [EvEnvNew ((λ i, MkEnvFn env_id (seed + i) mel nobs kwargs)
                             <$> seqZ 0 n_envs);
                 EvEnvReset l].
Proof.
  intros Hk Hnew Hn Hreset l.
  assert (Hrun :
    __init__ env_id n_envs n_test_envs mel gamma nobs cobs nrew crew seed
      kwargs σ0
    = (Raise (EnvFailure err),
       World (<[l := v']> (heap σ0))
         (trace σ0 ++ [EvEnvNew ((λ i, MkEnvFn env_id (seed + i) mel nobs kwargs)
                                   <$> seqZ 0 n_envs);
                       EvEnvReset l]))).
  { unfold __init__. unfold mbind at 1, M_bind at 1.
    rewrite (mapM_partial_make_ok _ _ _ _ _ _ _ Hk).
    unfold mbind, M_bind, new_SubprocVecEnv. rewrite Hnew.
    rewrite bool_decide_eq_true_2 by done.
    unfold env_reset, set_heap, log. cbn.
    rewrite lookup_insert_eq, Hreset. cbn.
    by rewrite insert_insert_eq, <- app_assoc. }
  cbn zeta. rewrite Hrun. cbn. repeat split.
  apply not_elem_of_dom, is_fresh.
Qed.

End Construction.

Section Behaviour.
Context `{VecEnvAPI} `{NormalizerAPI}.

Ltac unfold_methods :=
  unfold exec, returning, run_op, step, step_test, reset, reset_test,
    observation_space, action_space, in_world, getattr, call_normalizer,
    reset_normalizer, set_last_obs, get_last_obs, env_step, env_reset,
    env_space, set_heap, log, mbind, mret, M_bind, M_ret, raise in *.

Ltac split_cases := repeat (case_match; simplify_eq/=).

(** X5.  When the environment set's [step] raises, [step] and [step_test]
    raise the same error; the wrapper is as it was, no normalizer has
    been called, and the environment set is in the state the failed call
    left it. *)
Theorem step_failure_leaves_wrapper_untouched w σ actions l e err e' :
  envs w = Some l →
  envs_test w = Some l →
  heap σ !! l = Some e →
  venv_step e actions = (inl err, e') →
  step actions (w, σ)
  = (Raise (EnvFailure err),
     (w, World (<[l := e']> (heap σ)) (trace σ ++ [EvEnvStep l actions]))) ∧
  step_test actions (w, σ)
  = (Raise (EnvFailure err),
     (w, World (<[l := e']> (heap σ)) (trace σ ++ [EvEnvStep l actions]))).
Proof.
  intros Hh Ht Hl He. unfold_methods. cbn. by rewrite Hh, Ht, Hl, He.
Qed.

(** X6.  [reset] resets both normalizers before it resets the environment
    set: when that call raises, [reset] raises the same error with both
    normalizers already reset.  [reset_test] on the same failure leaves
    the wrapper as it was. *)
Theorem reset_failure_has_reset_the_normalizers w σ l e err e' :
  envs w = Some l →
  envs_test w = Some l →
  heap σ !! l = Some e →
  venv_reset e = (inl err, e') →
  reset (w, σ)
  = (Raise (EnvFailure err),
     (set_norm RewardNormalizer (norm_reset (reward_normalizer w) None)
        (set_norm StateNormalizer (norm_reset (state_normalizer w) None) w),
      World (<[l := e']> (heap σ))
        (trace σ ++ [EvNormReset StateNormalizer None;
                     EvNormReset RewardNormalizer None;
                     EvEnvReset l]))) ∧
  reset_test (w, σ)
  = (Raise (EnvFailure err),
     (w, World (<[l := e']> (heap σ)) (trace σ ++ [EvEnvReset l]))).
Proof.
  intros Hh Ht Hl He. unfold_methods. cbn. rewrite Hh, Ht, Hl, He. cbn.
  by rewrite <- !app_assoc.
Qed.

(** *** What the operations leave alone *)

Lemma run_op_last_obs o s :
  is_step_op o = false → last_obs (run_op o s).1 = last_obs s.1.
Proof.
  destruct s as [w σ]. destruct o; try done; intros _;
    unfold_methods; cbn; by split_cases.
Qed.

(** X7.  Only [step] assigns [last_obs]: a run without [step] leaves the
    attribute as it was, undefined if it was undefined; [reset] in
    particular returns new observations without storing them. *)
Theorem only_step_assigns_last_obs os s :
  Forall (λ o, is_step_op o = false) os →
  last_obs (run_ops os s).1 = last_obs s.1.
Proof.
  intros Hos. induction os as [|o os IH] using rev_ind; [done|].
  apply Forall_app in Hos as [Hos Ho%Forall_inv].
  rewrite run_ops_snoc, (run_op_last_obs _ _ Ho). by apply IH.
Qed.

Lemma run_op_configuration o s :
  same_configuration s.1 (run_op o s).1 ∧
  dom (heap (run_op o s).2) = dom (heap s.2) ∧
  ∀ l, is_handle s.1 l = false → heap (run_op o s).2 !! l = heap s.2 !! l.
Proof.
  assert (Hdom : ∀ (h : gmap loc venv) l e e',
    h !! l = Some e → dom (<[l := e']> h) = dom h).
  { intros h l e e' Hl. apply dom_insert_lookup_L. by rewrite Hl. }
  assert (Hframe : ∀ (w : NormalizedEnvWrapper) (h : gmap loc venv) l l' e',
    is_handle w l' = false → envs w = Some l ∨ envs_test w = Some l →
    <[l := e']> h !! l' = h !! l').
  { intros w h l l' e' Hno Hl. apply lookup_insert_ne. intros ->.
    unfold is_handle in Hno. apply orb_false_elim in Hno as [H1 H2].
    apply bool_decide_eq_false in H1, H2. by destruct Hl. }
  destruct s as [w σ]. unfold same_configuration.
  destruct o; unfold_methods; cbn; split_cases; cbn;
    (split; [by repeat split|]); (split; [by eauto|]);
    intros l' Hno; cbn; eauto.
Qed.

Lemma run_ops_configuration os s :
  same_configuration s.1 (run_ops os s).1 ∧
  dom (heap (run_ops os s).2) = dom (heap s.2) ∧
  ∀ l, is_handle s.1 l = false → heap (run_ops os s).2 !! l = heap s.2 !! l.
Proof.
  induction os as [|o os IH] using rev_ind.
  - by repeat split.
  - rewrite run_ops_snoc. destruct IH as (Hc & Hd & Hf).
    destruct (run_op_configuration o (run_ops os s)) as (Hc' & Hd' & Hf').
    unfold same_configuration, is_handle in *.
    destruct Hc as (? & ? & He & Ht & ? & ? & ? & ?).
    destruct Hc' as (? & ? & He' & Ht' & ? & ? & ? & ?).
    split; [repeat split; congruence|]. split; [congruence|].
    intros l Hl. rewrite Hf', Hf; [done..|]. by rewrite He, Ht.
Qed.

Lemma outs_state os s : (outs os s).2 = run_ops os s.
Proof.
  revert s. induction os as [|o os IH]; intros s; cbn; [done|].
  rewrite IH. by destruct o.
Qed.

(** X8.  No operation changes what [__init__] set once: the two handles,
    the constructors and the configuration flags stay as they were; no
    object is added to the heap or removed from it; and an object that is
    behind neither handle is never touched. *)
Theorem operations_keep_configuration os s :
  same_configuration s.1 (run_ops os s).1 ∧
  dom (heap (run_ops os s).2) = dom (heap s.2) ∧
  ∀ l, is_handle s.1 l = false → heap (run_ops os s).2 !! l = heap s.2 !! l.
Proof. apply run_ops_configuration. Qed.

(** *** The calls a run makes *)

Lemma is_handle_envs w l : envs w = Some l → is_handle w l = true.
Proof. intros Hl. unfold is_handle. by rewrite bool_decide_eq_true_2. Qed.

Lemma is_handle_envs_test w l : envs_test w = Some l → is_handle w l = true.
Proof.
  intros Hl. unfold is_handle.
  by rewrite (bool_decide_eq_true_2 (envs_test w = Some l)), orb_true_r.
Qed.

Ltac solve_events :=
  repeat constructor; cbn;
  auto using is_handle_envs, is_handle_envs_test, bool_decide_eq_true_2.

Ltac solve_trace :=
  cbn; rewrite <- ?app_assoc; cbn;
  first [ exists []; split; [by rewrite app_nil_r|]
        | eexists; split; [reflexivity|] ];
  (split; [|intros ?]); try done; solve_events.

Lemma run_op_trace o s :
  ∃ evs, trace (run_op o s).2 = trace s.2 ++ evs ∧
    Forall (λ ev, method_event s.1 ev = true) evs ∧
    (is_eval_op o = true → Forall (λ ev, eval_event s.1 ev = true) evs).
Proof.
  destruct s as [w σ].
  destruct o; unfold_methods; cbn; split_cases; solve_trace.
Qed.

Lemma same_configuration_events w w' ev :
  same_configuration w w' →
  method_event w' ev = method_event w ev ∧ eval_event w' ev = eval_event w ev.
Proof.
  intros (_ & _ & He & Ht & _). unfold method_event, eval_event, is_handle.
  by rewrite He, Ht.
Qed.

Lemma run_ops_trace os s :
  ∃ evs, trace (run_ops os s).2 = trace s.2 ++ evs ∧
    Forall (λ ev, method_event s.1 ev = true) evs ∧
    (forallb is_eval_op os = true →
     Forall (λ ev, eval_event s.1 ev = true) evs).
Proof.
  induction os as [|o os IH] using rev_ind.
  - exists []. by rewrite app_nil_r.
  - destruct IH as (evs & Htr & Hm & He).
    destruct (run_op_trace o (run_ops os s)) as (evs' & Htr' & Hm' & He').
    destruct (run_ops_configuration os s) as (Hc & _).
    exists (evs ++ evs'). rewrite run_ops_snoc, Htr', Htr, app_assoc.
    split; [done|]. split.
    + apply Forall_app. split; [done|].
      eapply Forall_impl; [exact Hm'|]. intros ev Hev.
      by rewrite <- (proj1 (same_configuration_events _ _ ev Hc)).
    + rewrite forallb_app. intros [Hos Ho]%andb_prop. cbn in Ho.
      rewrite andb_true_r in Ho. apply Forall_app. split; [by apply He|].
      eapply Forall_impl; [exact (He' Ho)|]. intros ev Hev.
      by rewrite <- (proj2 (same_configuration_events _ _ ev Hc)).
Qed.

(** X9.  In any run of [step], [step_test], [reset], [reset_test] and the
    two space properties, the wrapper calls nothing but [reset] and [step]
    on an environment set behind one of its own two handles and its own
    two normalizers; it creates no environment set after construction and
    never calls the reward normalizer with [update=False].
    ([render_test], not among these operations, calls [render].) *)
Theorem methods_call_only_their_collaborators os s :
  ∃ evs, trace (run_ops os s).2 = trace s.2 ++ evs ∧
    Forall (λ ev, method_event s.1 ev = true) evs.
Proof. destruct (run_ops_trace os s) as (evs & ? & ? & _). by exists evs. Qed.

(** X10.  Evaluation mode, for any normalizer implementation: a run of
    [step_test] and [reset_test] calls nothing but [reset] and [step] of
    the environment set behind [envs_test] and the state normalizer with
    [update=False]; it never resets a normalizer and never calls the
    reward normalizer. *)
Theorem evaluation_calls_no_update_no_reset os s :
  forallb is_eval_op os = true →
  ∃ evs, trace (run_ops os s).2 = trace s.2 ++ evs ∧
    Forall (λ ev, eval_event s.1 ev = true) evs.
Proof.
  intros Hos. destruct (run_ops_trace os s) as (evs & ? & _ & He).
  exists evs. auto.
Qed.

(** *** Arguments that play no part *)

Lemma bind_run {E Σ A B} (m : M E Σ A) (f : A → M E Σ B) (σ : Σ) :
  (m ≫= f) σ
  = match m σ with
    | (Ok a, σ') => f a σ'
    | (Raise e, σ') => (Raise e, σ')
    end.
Proof. reflexivity. Qed.

Lemma exec_with_clip_obs c o w σ :
  exec o (with_clip_obs c w, σ)
  = ((exec o (w, σ)).1,
     (with_clip_obs c (exec o (w, σ)).2.1, (exec o (w, σ)).2.2)).
Proof. destruct o; unfold_methods; cbn; by split_cases. Qed.

Lemma outs_with_clip_obs c os w σ :
  outs os (with_clip_obs c w, σ)
  = ((outs os (w, σ)).1,
     (with_clip_obs c (outs os (w, σ)).2.1, (outs os (w, σ)).2.2)).
Proof.
  revert w σ. induction os as [|o os IH]; intros w σ; cbn; [done|].
  rewrite exec_with_clip_obs. cbn.
  destruct (exec o (w, σ)) as [r [w1 σ1]]. cbn. by rewrite IH.
Qed.

(** X11.  [n_test_envs] and [clip_obs] have no effect: two constructions
    that differ in them only end in the same world, fail alike or give
    wrappers that differ in the attribute [clip_obs] only, and from there
    every run of operations returns the same results and leaves the same
    world. *)
Theorem n_test_envs_and_clip_obs_are_ignored env_id n_envs nt nt' mel gamma
    nobs cobs cobs' nrew crew seed kwargs σ0 :
  let r := __init__ env_id n_envs nt mel gamma nobs cobs nrew crew seed
             kwargs σ0 in
  let r' := __init__ env_id n_envs nt' mel gamma nobs cobs' nrew crew seed
              kwargs σ0 in
  r'.2 = r.2 ∧
  r'.1 = match r.1 with
         | Ok w => Ok (with_clip_obs cobs' w)
         | Raise e => Raise e
         end ∧
  ∀ w w' os, r.1 = Ok w → r'.1 = Ok w' →
    (outs os (w', r'.2)).1 = (outs os (w, r.2)).1 ∧
    (outs os (w', r'.2)).2.2 = (outs os (w, r.2)).2.2.
Proof.
  cbn zeta.
  assert (Hinit :
    __init__ env_id n_envs nt' mel gamma nobs cobs' nrew crew seed kwargs σ0
    = (match (__init__ env_id n_envs nt mel gamma nobs cobs nrew crew seed
                kwargs σ0).1 with
       | Ok w => Ok (with_clip_obs cobs' w)
       | Raise e => Raise e
       end,
       (__init__ env_id n_envs nt mel gamma nobs cobs nrew crew seed
          kwargs σ0).2)).
  { unfold __init__. rewrite !bind_run.
    destruct (mapM _ (seqZ 0 n_envs) σ0) as [[fns|e] σ1]; [|done].
    rewrite !bind_run. unfold new_SubprocVecEnv.
    destruct (SubprocVecEnv fns) as [err|v]; [done|].
    destruct (bool_decide (n_envs ≠ 0)); [|done].
    rewrite !bind_run.
    destruct (env_reset _ _) as [[obs|e] σ2]; done. }
  rewrite Hinit. cbn. split; [done|]. split; [done|].
  intros w w' os -> [= <-]. rewrite outs_with_clip_obs. by cbn.
Qed.

(** *** Training and evaluation side by side *)

(** X12.  In every state a caller can reach, [step_test] and [step] with
    the same actions see the same transition of the same environment set:
    they fail alike, with the same error, or succeed alike with the same
    [dones] and [infos]; the rewards [step] returns are the reward
    normalizer's answer to the rewards [step_test] returns.  [reset_test]
    and [reset] fail alike too. *)
Theorem step_test_sees_what_step_sees a s :
  reachable s →
  match (step a s).1, (step_test a s).1 with
  | Ok (_, rews, dones, infos), Ok (_, rews', dones', infos') =>
      dones' = dones ∧ infos' = infos ∧
      rews = (norm_call (reward_normalizer s.1) rews' true).1
  | Raise e, Raise e' => e' = e
  | _, _ => False
  end ∧
  match (reset s).1, (reset_test s).1 with
  | Ok _, Ok _ => True
  | Raise e, Raise e' => e' = e
  | _, _ => False
  end.
Proof.
  intros (l & e & He & Ht & Hl)%reachable_handles.
  destruct s as [w σ]. cbn in He, Ht, Hl. split.
  - destruct (venv_step e a) as [[err|[[[obs rews] dones] infos]] e'] eqn:Hs.
    + unfold_methods. cbn. by rewrite He, Ht, Hl, Hs.
    + rewrite (step_run _ _ _ _ _ _ _ _ _ _ He Hl Hs).
      by rewrite (step_test_run _ _ _ _ _ _ _ _ _ _ Ht Hl Hs).
  - destruct (venv_reset e) as [[err|obs] e'] eqn:Hr.
    + unfold_methods. cbn. by rewrite He, Ht, Hl, Hr.
    + rewrite (reset_run _ _ _ _ _ _ He Hl Hr).
      by rewrite (reset_test_run _ _ _ _ _ _ Ht Hl Hr).
Qed.

End Behaviour.

Section RenderFacts.
Context `{VecEnvAPI} `{NormalizerAPI}.
Variable Frame : Type.
Variable venv_render :
  venv → string → gmap string KwVal → (EnvError + Frame) * venv.

(** X13.  In every state a caller can reach, [render_test] renders the
    environment set behind [envs], the training one, in mode ["human"]
    when no mode is given; it returns [None] whatever [render] returned,
    raises what [render] raises, and leaves the wrapper as it was. *)
Theorem render_test_renders_the_training_envs mode kwargs s :
  reachable s →
  ∃ l e, envs s.1 = Some l ∧ heap s.2 !! l = Some e ∧
    let r := venv_render e (default "human" mode) kwargs in
    render_test Frame venv_render mode kwargs s
    = (match r.1 with
       | inl err => Raise (EnvFailure err)
       | inr _ => Ok ()
       end,
       (s.1, World (<[l := r.2]> (heap s.2)) (trace s.2))).
Proof.
  intros (l & e & He & Ht & Hl)%reachable_handles.
  exists l, e. split; [done|]. split; [done|].
  destruct s as [w σ]. cbn in *.
  unfold render_test, getattr, in_world, env_render, set_heap.
  rewrite !bind_run. cbn. rewrite Ht, Hl.
  by destruct (venv_render e _ kwargs) as [[err|frame] e'].
Qed.

End RenderFacts.

Section MakeEnvFacts.
Context `{GymAPI}.

(** X14.  The closure that [make_env] returns seeds the environment with
    [seed + rank]: two closures for the same id whose seed and rank have
    the same sum are the same.  When [gym.make] raises, the closure raises
    the same error and nothing is seeded; otherwise it returns the
    environment [gym.make] made, unless seeding raises. *)
Theorem make_env_seeds_with_seed_plus_rank env_id seed rank g :
  (∀ seed' rank', seed' + rank' = seed + rank →
     make_env env_id seed' rank' = make_env env_id seed rank) ∧
  (∀ e g', gym_make env_id g = (Raise e, g') →
     make_env env_id seed rank g = (Raise e, g')) ∧
  (∀ env g1, gym_make env_id g = (Ok env, g1) →
     make_env env_id seed rank g
     = match env_seed env (seed + rank) g1 with
       | (Ok _, g2) => (Ok env, g2)
       | (Raise e, g2) => (Raise e, g2)
       end).
Proof.
  unfold make_env, _get_env. split; [|split].
  - by intros seed' rank' ->.
  - intros e g' Hmake. by rewrite bind_run, Hmake.
  - intros env g1 Hmake. rewrite bind_run, Hmake, bind_run.
    by destruct (env_seed env (seed + rank) g1) as [[[]|e] g2].
Qed.

End MakeEnvFacts.

(** ** More runs on the small environment sets *)

Section MoreToyRuns.
Import Toy.
#[local] Existing Instance toy_env.
#[local] Existing Instance toy_norm.

Lemma func_list_seeds_are_consecutive_witness :
  fn_seed <$> @env_fns toy_env toy_norm w2 = [1; 2].
Proof.
  refine (proj1 (proj2 (@func_list_seeds_are_consecutive toy_env toy_norm
                   "toy" 2 1 2 0.5%float (Some true) None (Some true) None 1 ∅
                   world0 w2 σ2 _))).
  reflexivity.
Defined.

Lemma init_rejects_duplicate_normalize_obs_witness :
  @__init__ toy_env toy_norm "toy" 2 1 2 0.5%float (Some true) None
    (Some true) None 1 {["normalize_obs" := ()]} world0
  = (Raise (TypeError "multiple values for keyword argument normalize_obs"),
     world0).
Proof.
  refine (proj1 (@init_rejects_duplicate_normalize_obs toy_env toy_norm
                   "toy" 2 1 2 0.5%float (Some true) None (Some true) None 1
                   {["normalize_obs" := ()]} world0 _) _).
  - exists (). reflexivity.
  - reflexivity.
Defined.

Lemma init_propagates_constructor_failure_witness :
  construct_strict 0 2
  = (Raise (EnvFailure "need at least one environment"),
     @World strict_env ∅ [@EvEnvNew strict_env []]).
Proof.
  refine (@init_propagates_constructor_failure strict_env toy_norm
            "toy" 0 1 2 0.5%float (Some true) None (Some true) None 1 ∅
            (@World strict_env ∅ []) _ _ _); reflexivity.
Defined.

Lemma init_reset_failure_leaves_envs_behind_witness :
  (construct_strict 1 0).1 = Raise (EnvFailure "not ready for a reset").
Proof.
  refine (proj1 (@init_reset_failure_leaves_envs_behind strict_env toy_norm
                   "toy" 1 1 0 0.5%float (Some true) None (Some true) None 1 ∅
                   (@World strict_env ∅ [])
                   [Slot (MkEnvFn "toy" 1 0 (Some true) ∅) 0]
                   "not ready for a reset"
                   [Slot (MkEnvFn "toy" 1 0 (Some true) ∅) 0] _ _ _ _));
    [reflexivity | reflexivity | lia | reflexivity].
Defined.

Lemma step_failure_leaves_wrapper_untouched_witness :
  (@step toy_env toy_norm [1%float] (w2, σ2)).2.1 = w2.
Proof.
  refine (f_equal (λ r, r.2.1)
            (proj1 (@step_failure_leaves_wrapper_untouched toy_env toy_norm
                      w2 σ2 [1%float] 1%positive _
                      "actions do not match the number of slots" _ _ _ _ _)));
    reflexivity.
Defined.

Lemma reset_failure_has_reset_the_normalizers_witness :
  (@reset strict_env toy_norm (ws1, σs1)).1
  = Raise (EnvFailure "not ready for a reset").
Proof.
  refine (f_equal fst
            (proj1 (@reset_failure_has_reset_the_normalizers strict_env
                      toy_norm ws1 σs1 1%positive _ "not ready for a reset"
                      _ _ _ _ _)));
    reflexivity.
Defined.

Lemma only_step_assigns_last_obs_witness :
  last_obs (@run_ops toy_env toy_norm
              [OpReset; OpStepTest []; OpResetTest] (w0, σ0)).1 = None.
Proof.
  refine (@only_step_assigns_last_obs toy_env toy_norm
            [OpReset; OpStepTest []; OpResetTest] (w0, σ0) _).
  repeat constructor.
Defined.

Lemma evaluation_calls_no_update_no_reset_witness :
  ∃ evs,
    trace (@run_ops toy_env toy_norm [OpStepTest acts; OpResetTest]
             (w2, σ2)).2 = trace σ2 ++ evs ∧
    Forall (λ ev, eval_event w2 ev = true) evs.
Proof.
  refine (@evaluation_calls_no_update_no_reset toy_env toy_norm
            [OpStepTest acts; OpResetTest] (w2, σ2) _).
  reflexivity.
Defined.

Lemma render_test_renders_the_training_envs_witness :
  ∃ l e, envs w2 = Some l ∧ heap σ2 !! l = Some e ∧
    @render_test toy_env toy_norm nat toy_render None ∅ (w2, σ2)
    = (match (toy_render e "human" ∅).1 with
       | inl err => Raise (EnvFailure err)
       | inr _ => Ok ()
       end,
       (w2, World (<[l := (toy_render e "human" ∅).2]> (heap σ2)) (trace σ2))).
Proof.
  refine (@render_test_renders_the_training_envs toy_env toy_norm nat
            toy_render None ∅ (w2, σ2) _).
  apply (@reachable_init toy_env toy_norm "toy" 2 1 2 0.5%float (Some true)
           None (Some true) None 1 ∅ world0).
  reflexivity.
Defined.

Lemma step_test_sees_what_step_sees_witness :
  match (step acts (w2, σ2)).1, (step_test acts (w2, σ2)).1 with
  | Ok (_, rews, dones, infos), Ok (_, rews', dones', infos') =>
      dones' = dones ∧ infos' = infos ∧
      rews = (norm_call (reward_normalizer w2) rews' true).1
  | Raise e, Raise e' => e' = e
  | _, _ => False
  end.
Proof.
  refine (proj1 (@step_test_sees_what_step_sees toy_env toy_norm acts
                   (w2, σ2) _)).
  apply (@reachable_init toy_env toy_norm "toy" 2 1 2 0.5%float (Some true)
           None (Some true) None 1 ∅ world0).
  reflexivity.
Defined.

End MoreToyRuns.
